(** * sshm: the commands of package [cmd]

    A shallow embedding of the info command ([runInfo], [maybeString],
    [maybePort], [writeInfoJSON] and the completion function of [infoCmd]) and
    of the direct-connect path of the root command ([connectToHost]),
    together with the functions of the Go standard library they call and
    the registry of [internal/config] as the specification describes it. *)

From Stdlib Require Import String Ascii List ZArith NArith Bool Lia.
Import ListNotations.

Open Scope string_scope.
Open Scope Z_scope.
Open Scope list_scope.

Set Warnings "-register-all".

(** ** Go strings

    A Go string is a sequence of bytes; [string] (a list of [ascii]) is the
    same thing.  The functions below follow package [strings] and
    [strconv] byte for byte. *)

Module GoStrings.

Definition byte (n : N) : ascii := ascii_of_N n.

Definition bytes (l : list N) : list ascii := map byte l.

(** [strings.HasPrefix(s, prefix)] *)
Definition HasPrefix (s prefix : string) : bool := String.prefix prefix s.

(** [strings.Contains(s, substr)]: [substr] starts at some offset of [s]. *)
Fixpoint Contains (s substr : string) : bool :=
  HasPrefix s substr ||
  match s with
  | EmptyString => false
  | String _ s' => Contains s' substr
  end.

(** The white space of [unicode.IsSpace], each rune in its UTF-8 encoding:
    the six ASCII ones, U+0085, U+00A0, U+1680, U+2000..U+200A, U+2028,
    U+2029, U+202F, U+205F and U+3000. *)
Definition spaceRunes : list (list ascii) :=
  map bytes
    [ [9]; [10]; [11]; [12]; [13]; [32];
      [194; 133]; [194; 160]; [225; 154; 128];
      [226; 128; 128]; [226; 128; 129]; [226; 128; 130]; [226; 128; 131];
      [226; 128; 132]; [226; 128; 133]; [226; 128; 134]; [226; 128; 135];
      [226; 128; 136]; [226; 128; 137]; [226; 128; 138];
      [226; 128; 168]; [226; 128; 169]; [226; 128; 175];
      [226; 129; 159]; [227; 128; 128] ]%N.

Fixpoint startsWith (p l : list ascii) : bool :=
  match p, l with
  | [], _ => true
  | _ :: _, [] => false
  | a :: p', b :: l' => Ascii.eqb a b && startsWith p' l'
  end.

(** Width in bytes of the white-space rune found at the head of [l] when
    it is looked for in [table]; [0] when there is none. *)
Definition spaceWidth (table : list (list ascii)) (l : list ascii) : nat :=
  match find (fun r => startsWith r l) table with
  | Some r => List.length r
  | None => O
  end.

(** [strings.TrimLeftFunc(s, unicode.IsSpace)]: [skip] counts the bytes of
    the current rune that are still to be dropped. *)
Fixpoint trimLeft (table : list (list ascii)) (l : list ascii) (skip : nat)
  : list ascii :=
  match l with
  | [] => []
  | _ :: l' =>
      match skip with
      | S k => trimLeft table l' k
      | O =>
          match spaceWidth table l with
          | O => l
          | S k => trimLeft table l' k
          end
      end
  end.

(** [strings.TrimSpace(s)]: leading white space goes first, then trailing
    white space; the trailing runes are read backwards, so the reversed
    encodings are looked for in the reversed string. *)
Definition TrimSpace (s : string) : string :=
  let l := trimLeft spaceRunes (list_ascii_of_string s) O in
  let r := trimLeft (map (@rev ascii) spaceRunes) (rev l) O in
  string_of_list_ascii (rev r).

Definition isUpperByte (c : ascii) : bool :=
  ((65 <=? N_of_ascii c) && (N_of_ascii c <=? 90))%N.

Definition isASCIIByte (c : ascii) : bool := (N_of_ascii c <? 128)%N.

Definition lowerByte (c : ascii) : ascii :=
  if isUpperByte c then ascii_of_N (N_of_ascii c + 32) else c.

Fixpoint mapBytes (f : ascii -> ascii) (s : string) : string :=
  match s with
  | EmptyString => EmptyString
  | String c s' => String (f c) (mapBytes f s')
  end.

Fixpoint allBytes (p : ascii -> bool) (s : string) : bool :=
  match s with
  | EmptyString => true
  | String c s' => p c && allBytes p s'
  end.

(** The case tables of package [unicode] are no part of the repository;
    [strings.ToLower] consults them only for a string that holds a byte
    outside ASCII. *)
Class UnicodeTables := { mapToLower : string -> string }.

(** [strings.ToLower(s)] *)
Definition ToLower `{UnicodeTables} (s : string) : string :=
  if allBytes isASCIIByte s then mapBytes lowerByte s else mapToLower s.

(** Tables that leave every non-ASCII string alone, for running examples. *)
Definition asciiOnlyTables : UnicodeTables := {| mapToLower := fun s => s |}.

(** *** [strconv.Atoi] *)

Inductive NumError := ErrSyntax | ErrRange.

(** [strconv.IntSize] *)
Definition intSize : Z := 64.

Definition digitOf (c : ascii) : option Z :=
  let n := Z.of_N (N_of_ascii c) in
  if (48 <=? n) && (n <=? 57) then Some (n - 48) else None.

(** The digit loop of [strconv.ParseUint(s, 10, 64)]: a byte that is no
    digit is a syntax error, a value past [2^64 - 1] a range error, each
    reported where the scan meets it. *)
Fixpoint parseUintLoop (s : string) (n : Z) : Z + NumError :=
  match s with
  | EmptyString => inl n
  | String c s' =>
      match digitOf c with
      | None => inr ErrSyntax
      | Some d =>
          if 2 ^ 64 <=? n * 10 + d then inr ErrRange
          else parseUintLoop s' (n * 10 + d)
      end
  end.

(** [strconv.Atoi(s)], that is [ParseInt(s, 10, 0)]: an optional sign, at
    least one digit, and a value that fits [int]. *)
Definition Atoi (s : string) : Z + NumError :=
  match s with
  | EmptyString => inr ErrSyntax
  | String c rest =>
      let neg := Ascii.eqb c "-" in
      let body := if Ascii.eqb c "+" || neg then rest else s in
      match body with
      | EmptyString => inr ErrSyntax
      | _ =>
          match parseUintLoop body 0 with
          | inr e => inr e
          | inl un =>
              let cutoff := 2 ^ (intSize - 1) in
              if neg then
                if cutoff <? un then inr ErrRange else inl (- un)
              else
                if cutoff <=? un then inr ErrRange else inl un
          end
      end
  end.

End GoStrings.
Import GoStrings.

(** ** What [cmd] sees of package [config]

    [internal/config] is not among the sources at hand.  The shape of
    [config.SSHHost] is fixed by its uses in [runInfo]: every directive field
    is a plain [string] handed to [maybeString] or [maybePort], [Tags] is a
    [[]string] (a slice, [None] being [nil]), [LineNumber] an [int]. *)

Record SSHHost := {
  Name : string;
  Hostname : string;
  User : string;
  Port : string;
  Identity : string;
  ProxyJump : string;
  ProxyCommand : string;
  Options : string;
  Tags : option (list string);
  RemoteCommand : string;
  RequestTTY : string;
  SourceFile : string;
  LineNumber : Z
}.

(** Modelled from the spec: the kinds of the errors of [internal/config],
    which Go hides behind the [error] interface (section 7: ParseError,
    NotFoundError, PortParseError, StaleEditError, WriteError). *)
Inductive ErrorKind :=
| ParseError | NotFoundError | PortParseError | StaleEditError | WriteError.

(** A Go [error]: its dynamic kind and the text of [err.Error()]. *)
Record error := { err_kind : ErrorKind; Error : string }.

(** The functions of [config] that [cmd] calls.  Each returns what Go
    returns: a value or an error, and for the quick checks the pair
    [(bool, error)].  One invocation of the program sees one state of the
    file system, hence plain functions. *)
Class ConfigPackage := {
  GetSSHHostFromFile : string -> string -> SSHHost + error;
  GetSSHHost : string -> SSHHost + error;
  ParseSSHConfigFile : string -> list SSHHost + error;
  ParseSSHConfig : list SSHHost + error;
  QuickHostExistsInFile : string -> string -> bool * option error;
  QuickHostExists : string -> bool * option error
}.

(** ** JSON values, as [encoding/json] writes them *)

Inductive json :=
| JNull
| JBool (b : bool)
| JNumber (n : Z)
| JString (s : string)
| JArray (items : list json)
| JObject (members : list (string * json)).

(** The value of member [key] of an object. *)
Definition member (key : string) (v : json) : option json :=
  match v with
  | JObject members =>
      option_map snd (find (fun kv => String.eqb (fst kv) key) members)
  | _ => None
  end.

(** The member names of an object, in the order they are written. *)
Definition keys (v : json) : list string :=
  match v with
  | JObject members => map fst members
  | _ => []
  end.

(** [json.RawMessage]: bytes that are copied into the output after
    [encoding/json] has checked that they are one JSON value.  That check
    belongs to the library. *)
Definition RawMessage := string.

Class EncodingJSON := { rawValue : RawMessage -> option json }.

(** ** The info command *)

Record infoError := {
  ie_Code : string;
  ie_Message : string;
  ie_Details : option RawMessage
}.

Record infoSource := { src_File : string; src_Line : Z }.

Record infoTarget := {
  tgt_Host : string;
  tgt_Hostname : option string;
  tgt_User : option string;
  tgt_Port : option Z
}.

Record infoResult := {
  res_CanonicalName : string;
  res_Target : infoTarget;
  res_IdentityFile : option string;
  res_ProxyJump : option string;
  res_ProxyCommand : option string;
  res_Options : option string;
  res_Tags : option (list string);
  res_RemoteCommand : option string;
  res_RequestTTY : option string;
  res_Source : option infoSource
}.

Record infoResponse := {
  resp_Schema : string;
  resp_OK : bool;
  resp_Hostname : string;
  resp_Result : option infoResult;
  resp_Error : option infoError
}.

Definition maybeString (v : string) : option string :=
  let trimmed := TrimSpace v in
  if String.eqb trimmed "" then None else Some trimmed.

Definition maybePort (v : string) : option Z + NumError :=
  let trimmed := TrimSpace v in
  if String.eqb trimmed "" then inl None
  else
    match Atoi trimmed with
    | inr err => inr err
    | inl port => inl (Some port)
    end.

(** *** [json.Marshal] on the types above, by their field tags *)

Definition orNull {A} (f : A -> json) (o : option A) : json :=
  match o with
  | None => JNull
  | Some a => f a
  end.

Definition marshalSource (s : infoSource) : json :=
  JObject [("file", JString (src_File s)); ("line", JNumber (src_Line s))].

Definition marshalTarget (t : infoTarget) : json :=
  JObject [("host", JString (tgt_Host t));
           ("hostname", orNull JString (tgt_Hostname t));
           ("user", orNull JString (tgt_User t));
           ("port", orNull JNumber (tgt_Port t))].

Definition marshalResult (r : infoResult) : json :=
  JObject [("canonical_name", JString (res_CanonicalName r));
           ("target", marshalTarget (res_Target r));
           ("identity_file", orNull JString (res_IdentityFile r));
           ("proxy_jump", orNull JString (res_ProxyJump r));
           ("proxy_command", orNull JString (res_ProxyCommand r));
           ("options", orNull JString (res_Options r));
           ("tags", orNull (fun l => JArray (map JString l)) (res_Tags r));
           ("remote_command", orNull JString (res_RemoteCommand r));
           ("request_tty", orNull JString (res_RequestTTY r));
           ("source", orNull marshalSource (res_Source r))].

(** A [nil] raw message is written as [null]; any other one must be a JSON
    value, or marshalling fails. *)
Definition marshalRaw `{EncodingJSON} (d : option RawMessage) : option json :=
  match d with
  | None => Some JNull
  | Some raw => rawValue raw
  end.

Definition marshalError `{EncodingJSON} (e : infoError) : option json :=
  match marshalRaw (ie_Details e) with
  | None => None
  | Some d =>
      Some (JObject [("code", JString (ie_Code e));
                     ("message", JString (ie_Message e));
                     ("details", d)])
  end.

Inductive MarshalerError := InvalidRawMessage.

Definition Marshal `{EncodingJSON} (resp : infoResponse)
  : json + MarshalerError :=
  match
    match resp_Error resp with
    | None => Some JNull
    | Some e => marshalError e
    end
  with
  | None => inr InvalidRawMessage
  | Some e =>
      inl (JObject [("schema", JString (resp_Schema resp));
                    ("ok", JBool (resp_OK resp));
                    ("hostname", JString (resp_Hostname resp));
                    ("result", orNull marshalResult (resp_Result resp));
                    ("error", e)])
  end.

(** The line feed, and the two bytes that spell it in a Go source: a
    backslash and the letter n. *)
Definition lineFeed : string := String (ascii_of_N 10) "".

Definition backslashN : string := String (ascii_of_N 92) "n".

(** What one call of [Write] or [io.WriteString] puts on the [io.Writer]:
    the text of a JSON value, compact or indented, and the bytes that
    follow it. *)
Record document := {
  doc_indent : bool;
  doc_value : json;
  doc_end : string
}.

Definition Writer := list document.

(** [json.MarshalIndent(resp, "", "  ")] differs from [json.Marshal] in
    white space only. *)
Definition MarshalIndent `{EncodingJSON} (resp : infoResponse) :=
  Marshal resp.

(** The text that [writeInfoJSON] falls back on when marshalling fails, as
    the value it denotes.  The source has it in a raw string literal,
    compact, with [\n] at its end: in a raw literal that is a backslash and
    an n, not a line feed. *)
Definition internalErrorValue : json :=
  JObject [("schema", JString "sshm.info.v1");
           ("ok", JBool false);
           ("hostname", JString "");
           ("result", JNull);
           ("error", JObject [("code", JString "INTERNAL");
                              ("message", JString "failed to marshal JSON");
                              ("details", JNull)])].

Definition writeInfoJSON `{EncodingJSON}
  (out : Writer) (pretty : bool) (resp : infoResponse) : Writer :=
  match (if pretty then MarshalIndent resp else Marshal resp) with
  | inr _ =>
      out ++ [{| doc_indent := false;
                 doc_value := internalErrorValue;
                 doc_end := backslashN |}]
  | inl b =>
      out ++ [{| doc_indent := pretty; doc_value := b; doc_end := lineFeed |}]
  end.

Definition withError (resp : infoResponse) (e : infoError) : infoResponse :=
  {| resp_Schema := resp_Schema resp;
     resp_OK := resp_OK resp;
     resp_Hostname := resp_Hostname resp;
     resp_Result := resp_Result resp;
     resp_Error := Some e |}.

Definition withResult (resp : infoResponse) (res : infoResult)
  : infoResponse :=
  {| resp_Schema := resp_Schema resp;
     resp_OK := true;
     resp_Hostname := resp_Hostname resp;
     resp_Result := Some res;
     resp_Error := resp_Error resp |}.

(** The lookup that opens [runInfo]. *)
Definition lookupHost `{ConfigPackage} (hostnameArg cfgFile : string)
  : SSHHost + error :=
  if negb (String.eqb cfgFile "") then GetSSHHostFromFile hostnameArg cfgFile
  else GetSSHHost hostnameArg.

(** [runInfo(out, hostnameArg, cfgFile, pretty)]: the writer after the call
    and the exit status returned. *)
Definition runInfo `{EncodingJSON} `{ConfigPackage}
  (out : Writer) (hostnameArg cfgFile : string) (pretty : bool)
  : Writer * Z :=
  let resp :=
    {| resp_Schema := "sshm.info.v1";
       resp_OK := false;
       resp_Hostname := hostnameArg;
       resp_Result := None;
       resp_Error := None |} in
  match lookupHost hostnameArg cfgFile with
  | inr err =>
      let msg := Error err in
      let '(code, errCode) :=
        if Contains msg "not found" then (2, "NOT_FOUND")
        else (1, "CONFIG_ERROR") in
      let resp :=
        withError resp
          {| ie_Code := errCode; ie_Message := msg; ie_Details := None |} in
      (writeInfoJSON out pretty resp, code)
  | inl host =>
      match maybePort (Port host) with
      | inr portErr =>
          let resp :=
            withError resp
              {| ie_Code := "CONFIG_ERROR";
                 ie_Message := "invalid port in host configuration";
                 ie_Details := None |} in
          (writeInfoJSON out pretty resp, 1)
      | inl port =>
          let res :=
            {| res_CanonicalName := Name host;
               res_Target :=
                 {| tgt_Host := hostnameArg;
                    tgt_Hostname := maybeString (Hostname host);
                    tgt_User := maybeString (User host);
                    tgt_Port := port |};
               res_IdentityFile := maybeString (Identity host);
               res_ProxyJump := maybeString (ProxyJump host);
               res_ProxyCommand := maybeString (ProxyCommand host);
               res_Options := maybeString (Options host);
               res_Tags := Tags host;
               res_RemoteCommand := maybeString (RemoteCommand host);
               res_RequestTTY := maybeString (RequestTTY host);
               res_Source :=
                 Some {| src_File := SourceFile host;
                         src_Line := LineNumber host |} |} in
          (writeInfoJSON out pretty (withResult resp res), 0)
      end
  end.

(** The package-level variables of [cmd] that the [--config] and [--tty]
    flags set. *)
Record Flags := { configFile : string; forceTTY : bool }.

(** The two values of [cobra.ShellCompDirective] that [cmd] returns. *)
Inductive ShellCompDirective :=
| ShellCompDirectiveError
| ShellCompDirectiveNoFileComp.

(** [infoCmd.ValidArgsFunction].  A [nil] slice of completions and an empty
    one are both [[]]; the loop appends exactly as the source does. *)
Definition infoCmd_ValidArgsFunction `{UnicodeTables} `{ConfigPackage}
  (flags : Flags) (args : list string) (toComplete : string)
  : list string * ShellCompDirective :=
  if negb (Nat.eqb (List.length args) 0) then
    ([], ShellCompDirectiveNoFileComp)
  else
    match
      (if negb (String.eqb (configFile flags) "")
       then ParseSSHConfigFile (configFile flags)
       else ParseSSHConfig)
    with
    | inr _ => ([], ShellCompDirectiveError)
    | inl hosts =>
        let toCompleteLower := ToLower toComplete in
        let completions :=
          fold_left
            (fun completions host =>
               if HasPrefix (ToLower (Name host)) toCompleteLower
               then completions ++ [Name host]
               else completions)
            hosts [] in
        (completions, ShellCompDirectiveNoFileComp)
    end.

(** ** The root command: the direct-connect path *)

(** Package [history], of which [connectToHost] needs two calls. *)
Class HistoryPackage := {
  HistoryManager : Type;
  NewHistoryManager : HistoryManager + error;
  RecordConnection : HistoryManager -> string -> option error
}.

(** What [Run] of an [exec.Cmd] may return besides [nil]: an [*exec.ExitError],
    whose [Sys()] is a [syscall.WaitStatus] or not, or any other error. *)
Inductive RunError :=
| ExitError (waitStatus : option Z) (text : string)
| OtherError (text : string).

Definition RunError_Error (e : RunError) : string :=
  match e with
  | ExitError _ text => text
  | OtherError text => text
  end.

Class OSExec := { Run : string -> list string -> option RunError }.

(** What the process does to the world, in the order it does it. *)
Inductive event :=
| Stdout (text : string)
| LogFatal (text : string)
| EvNewHistoryManager
| EvRecordConnection (hostName : string)
| EvExec (name : string) (args : list string)
| EvExit (code : Z).

(** A computation that appends to the trace of events and either yields a
    value or has ended the process ([os.Exit]). *)
Definition Proc (A : Type) : Type := list event -> list event * option A.

Definition ret {A} (a : A) : Proc A := fun t => (t, Some a).

Definition bind {A B} (m : Proc A) (k : A -> Proc B) : Proc B :=
  fun t =>
    match m t with
    | (t', Some a) => k a t'
    | (t', None) => (t', None)
    end.

Section DirectConnect.

Local Notation "x <- m ;; k" := (bind m (fun x => k))
  (at level 61, m at next level, right associativity).
Local Notation "m ;; k" := (bind m (fun _ => k))
  (at level 61, right associativity).

Definition emit (e : event) : Proc unit := fun t => (t ++ [e], Some tt).

Definition os_Exit {A} (code : Z) : Proc A :=
  fun t => (t ++ [EvExit code], None).

Definition nl : string := String (ascii_of_N 10) "".

Definition fmt_Print (text : string) : Proc unit := emit (Stdout text).

Definition fmt_Println (text : string) : Proc unit :=
  emit (Stdout (text ++ nl)%string).

(** [log.Fatalf]: the message, then [os.Exit(1)]. *)
Definition log_Fatal {A} (text : string) : Proc A :=
  emit (LogFatal text) ;; os_Exit 1.

Definition connectToHost `{ConfigPackage} `{HistoryPackage} `{OSExec}
  (flags : Flags) (hostName : string) (remoteCommand : list string)
  : Proc unit :=
  let '(hostFound, err) :=
    if negb (String.eqb (configFile flags) "")
    then QuickHostExistsInFile hostName (configFile flags)
    else QuickHostExists hostName in
  match err with
  | Some e => log_Fatal ("Error checking SSH config: " ++ Error e)%string
  | None => ret tt
  end ;;
  (if negb hostFound then
     fmt_Print ("Error: Host '" ++ hostName
                ++ "' not found in SSH configuration." ++ nl)%string ;;
     fmt_Println "Use 'sshm' to see available hosts." ;;
     os_Exit 1
   else ret tt) ;;
  emit EvNewHistoryManager ;;
  match NewHistoryManager with
  | inr e =>
      fmt_Print ("Warning: Could not initialize connection history: "
                 ++ Error e ++ nl)%string
  | inl historyManager =>
      emit (EvRecordConnection hostName) ;;
      match RecordConnection historyManager hostName with
      | Some e =>
          fmt_Print ("Warning: Could not record connection history: "
                     ++ Error e ++ nl)%string
      | None => ret tt
      end
  end ;;
  let args := [] in
  let args :=
    if negb (String.eqb (configFile flags) "")
    then args ++ ["-F"; configFile flags] else args in
  let args := if forceTTY flags then args ++ ["-t"] else args in
  let args := args ++ [hostName] in
  args <-
    (if Nat.ltb 0 (List.length remoteCommand)
     then ret (args ++ remoteCommand)
     else
       fmt_Print ("Connecting to " ++ hostName ++ "..." ++ nl)%string ;;
       ret args) ;;
  emit (EvExec "ssh" args) ;;
  match Run "ssh" args with
  | None => ret tt
  | Some (ExitError (Some status) _) => os_Exit status
  | Some e =>
      fmt_Print ("Error executing SSH command: "
                 ++ RunError_Error e ++ nl)%string ;;
      os_Exit 1
  end.

End DirectConnect.

(** ** The registry of [internal/config], from the specification

    None of [internal/config] is among the sources.  This module follows
    sections 3 and 4 of the specification, with one fact taken from the
    code that calls it: a record is a [config.SSHHost], whose unset fields
    are empty strings and whose [Port] is the text of the directive.  As
    section 4.4 has it, [Get] fails with a PortParseError when that text
    is no number; [runInfo] parses the text of a record once more with
    [maybePort]. *)

Module Registry.

(** Modelled from the spec: the kinds of line of section 4.1; the type of
    the Line Classifier's results is missing from the sources. *)
Inductive LineKind :=
| Blank
| Comment
| TagComment (tags : list string)
| Directive (keyword value : string)
| HostDecl (patterns : list string).

Definition isSpaceByte (c : ascii) : bool :=
  match N_of_ascii c with
  | 9 | 10 | 11 | 12 | 13 | 32 => true
  | _ => false
  end%N.

(** Splits [s] at every byte that satisfies [sep]; [cur] holds the bytes of
    the piece being read, last byte first. *)
Fixpoint splitAt (sep : ascii -> bool) (s : string) (cur : list ascii)
  : list string :=
  match s with
  | EmptyString => [string_of_list_ascii (rev cur)]
  | String c s' =>
      if sep c then string_of_list_ascii (rev cur) :: splitAt sep s' []
      else splitAt sep s' (c :: cur)
  end.

Definition nonEmpty (s : string) : bool := negb (String.eqb s "").

(** The words of [s]: its maximal runs of bytes that are no white space. *)
Definition Fields (s : string) : list string :=
  filter nonEmpty (splitAt isSpaceByte s []).

(** The first word of [s] and what follows the white space after it. *)
Fixpoint cutKeyword (s : string) (cur : list ascii) : string * string :=
  match s with
  | EmptyString => (string_of_list_ascii (rev cur), "")
  | String c s' =>
      if isSpaceByte c then (string_of_list_ascii (rev cur), TrimSpace s')
      else cutKeyword s' (c :: cur)
  end.

Definition EqualFold (a b : string) : bool :=
  String.eqb (mapBytes lowerByte a) (mapBytes lowerByte b).

Definition dropBytes (n : nat) (s : string) : string :=
  String.substring n (String.length s - n) s.

Definition isComma (c : ascii) : bool := Ascii.eqb c ",".

(** Modelled from the spec: the tag list of a comment [# Tags: a, b], the
    keyword in any case; [None] for any other comment. *)
Definition tagList (t : string) : option (list string) :=
  let body := TrimSpace (dropBytes 1 t) in
  if HasPrefix (mapBytes lowerByte body) "tags:" then
    Some (filter nonEmpty
            (map TrimSpace (splitAt isComma (dropBytes 5 body) [])))
  else None.

(** Modelled from the spec: the Line Classifier of section 4.1.  A [Host]
    line without a pattern fits no shape and counts as a comment. *)
Definition classify (line : string) : LineKind :=
  let t := TrimSpace line in
  match t with
  | EmptyString => Blank
  | String c _ =>
      if Ascii.eqb c "#" then
        match tagList t with
        | Some tags => TagComment tags
        | None => Comment
        end
      else
        let '(keyword, value) := cutKeyword t [] in
        if EqualFold keyword "Host" then
          match Fields value with
          | [] => Comment
          | patterns => HostDecl patterns
          end
        else Directive keyword value
  end.

(** Modelled from the spec: the RawBlock of section 3; each directive is a
    [(keyword, rawValue, lineNumber)] triple. *)
Record RawBlock := {
  blk_line : Z;
  blk_patterns : list string;
  blk_tags : option (list string);
  blk_directives : list (string * string * Z)
}.

Definition addDirective (d : string * string * Z) (b : RawBlock) : RawBlock :=
  {| blk_line := blk_line b;
     blk_patterns := blk_patterns b;
     blk_tags := blk_tags b;
     blk_directives := blk_directives b ++ [d] |}.

Definition flush (current : option RawBlock) : list RawBlock :=
  match current with
  | Some b => [b]
  | None => []
  end.

(** Modelled from the spec: the Block Assembler of section 4.2, reading the
    lines from number [n] on with the pending tag comment and the block that
    is open.  Blank lines keep a pending tag comment, any other line that is
    no [Host] line drops it (section 8, tag attachment). *)
Fixpoint assembleFrom (n : Z) (pending : option (list string))
  (current : option RawBlock) (lines : list string) : list RawBlock :=
  match lines with
  | [] => flush current
  | line :: rest =>
      match classify line with
      | Blank => assembleFrom (n + 1) pending current rest
      | Comment => assembleFrom (n + 1) None current rest
      | TagComment tags => assembleFrom (n + 1) (Some tags) current rest
      | Directive keyword value =>
          assembleFrom (n + 1) None
            (option_map (addDirective (keyword, value, n)) current) rest
      | HostDecl patterns =>
          flush current ++
          assembleFrom (n + 1) None
            (Some {| blk_line := n;
                     blk_patterns := patterns;
                     blk_tags := pending;
                     blk_directives := [] |})
            rest
      end
  end.

Definition assemble (lines : list string) : list RawBlock :=
  assembleFrom 1 None None lines.

(** Modelled from the spec: glob matching of section 4.3; [*] stands for
    any run of bytes, [?] for one byte. *)
Fixpoint globMatch (p : list ascii) : list ascii -> bool :=
  match p with
  | [] => fun s => match s with [] => true | _ :: _ => false end
  | c :: p' =>
      if Ascii.eqb c "*" then
        fix star (s : list ascii) : bool :=
          globMatch p' s ||
          match s with
          | [] => false
          | _ :: s' => star s'
          end
      else
        fun s =>
          match s with
          | [] => false
          | d :: s' => (Ascii.eqb c "?" || Ascii.eqb c d) && globMatch p' s'
          end
  end.

Definition glob (pattern name : string) : bool :=
  globMatch (list_ascii_of_string pattern) (list_ascii_of_string name).

Definition isNegated (pattern : string) : bool := HasPrefix pattern "!".

Definition isGlobByte (c : ascii) : bool :=
  Ascii.eqb c "*" || Ascii.eqb c "?".

(** Modelled from the spec: a literal pattern (glossary) has no [*], no [?]
    and no leading [!]. *)
Definition isLiteral (pattern : string) : bool :=
  negb (isNegated pattern) && allBytes (fun c => negb (isGlobByte c)) pattern.

(** Modelled from the spec: a block applies to [name] when a pattern of it
    matches and no negated pattern of it does (section 4.3). *)
Definition blockMatches (name : string) (b : RawBlock) : bool :=
  negb (existsb (fun p => isNegated p && glob (dropBytes 1 p) name)
          (blk_patterns b)) &&
  existsb (fun p => negb (isNegated p) && glob p name) (blk_patterns b).

(** The first directive of the block with this keyword (section 3: within a
    block the first occurrence wins). *)
Definition firstDirective (keyword : string) (b : RawBlock) : option string :=
  option_map (fun d => snd (fst d))
    (find (fun d => EqualFold (fst (fst d)) keyword) (blk_directives b)).

(** Modelled from the spec: the Merge Engine of section 4.3 for one field:
    the value from the first matching block that sets it. *)
Fixpoint resolve (keyword name : string) (blocks : list RawBlock)
  : option string :=
  match blocks with
  | [] => None
  | b :: rest =>
      if blockMatches name b then
        match firstDirective keyword b with
        | Some v => Some v
        | None => resolve keyword name rest
        end
      else resolve keyword name rest
  end.

(** Whether a pattern list holds [name] verbatim. *)
Definition declares (name : string) (patterns : list string) : bool :=
  existsb (String.eqb name) patterns.

Definition blockDeclares (name : string) (b : RawBlock) : bool :=
  declares name (blk_patterns b).

(** Modelled from the spec: the host's home block, the first block whose
    pattern list holds the name verbatim. *)
Definition homeBlock (name : string) (blocks : list RawBlock)
  : option RawBlock :=
  find (blockDeclares name) blocks.

Definition orEmpty (o : option string) : string :=
  match o with
  | Some v => v
  | None => ""
  end.

(** Modelled from the spec: the effective record of [name] (section 4.3).
    The specification does not say what fills [Options]; it stays unset. *)
Definition record (path name : string) (home : RawBlock)
  (blocks : list RawBlock) : SSHHost :=
  {| Name := name;
     Hostname := orEmpty (resolve "HostName" name blocks);
     User := orEmpty (resolve "User" name blocks);
     Port := orEmpty (resolve "Port" name blocks);
     Identity := orEmpty (resolve "IdentityFile" name blocks);
     ProxyJump := orEmpty (resolve "ProxyJump" name blocks);
     ProxyCommand := orEmpty (resolve "ProxyCommand" name blocks);
     Options := "";
     Tags := blk_tags home;
     RemoteCommand := orEmpty (resolve "RemoteCommand" name blocks);
     RequestTTY := orEmpty (resolve "RequestTTY" name blocks);
     SourceFile := path;
     LineNumber := blk_line home |}.

(** The files of the machine: the text of a readable file, or the reason
    that the operating system gives for not reading it. *)
Definition FileSystem := string -> string + string.

Definition isLineFeed (c : ascii) : bool := Ascii.eqb c (ascii_of_N 10).

(** Modelled from the spec: [Load] of section 4.4, a ParseError for a file
    that cannot be read, else its lines. *)
Definition Load (fs : FileSystem) (path : string) : list string + error :=
  match fs path with
  | inr reason => inr {| err_kind := ParseError; Error := reason |}
  | inl text => inl (splitAt isLineFeed text [])
  end.

(** Modelled from the spec: the NotFoundError of section 4.4.  Its text is
    not specified; [TestRunInfoNotFoundJSON] needs it to hold "not found". *)
Definition notFound (name : string) : error :=
  {| err_kind := NotFoundError;
     Error := ("host '" ++ name ++ "' not found")%string |}.

(** Modelled from the spec: the lookup of section 4.3 in the blocks of a
    loaded file: the record of a name that a block declares literally, a
    NotFoundError for any other name. *)
Definition lookup (path name : string) (blocks : list RawBlock)
  : SSHHost + error :=
  if isLiteral name then
    match homeBlock name blocks with
    | Some home => inl (record path name home blocks)
    | None => inr (notFound name)
    end
  else inr (notFound name).

(** Modelled from the spec: the PortParseError of section 4.4, which holds
    the name and the raw value.  Its text is not specified. *)
Definition portParseError (name rawValue : string) : error :=
  {| err_kind := PortParseError;
     Error := ("invalid port '" ++ rawValue ++ "' for host '" ++ name
               ++ "'")%string |}.

(** Modelled from the spec: the check of [Get] on the resolved [Port]
    directive (section 4.4).  The specification does not say which values
    are numeric; here they are those that [strconv.Atoi] parses. *)
Definition checkPort (name : string) (blocks : list RawBlock)
  : option error :=
  match resolve "Port" name blocks with
  | None => None
  | Some rawValue =>
      match Atoi rawValue with
      | inl _ => None
      | inr _ => Some (portParseError name rawValue)
      end
  end.

(** Modelled from the spec: [Get], the full lookup (section 4.4),
    [config.GetSSHHostFromFile] in the calls of [cmd]; it fails with a
    ParseError for a file that cannot be read, with a NotFoundError for a
    name that no block declares, and with a PortParseError when the
    resolved [Port] of the host is no number. *)
Definition Get (fs : FileSystem) (name path : string) : SSHHost + error :=
  match Load fs path with
  | inr e => inr e
  | inl lines =>
      let blocks := assemble lines in
      match lookup path name blocks with
      | inr e => inr e
      | inl h =>
          match checkPort name blocks with
          | Some e => inr e
          | None => inl h
          end
      end
  end.

(** Whether a line is a [Host] line that declares [name]. *)
Definition hostLineDeclares (name line : string) : bool :=
  match classify line with
  | HostDecl patterns => declares name patterns
  | _ => false
  end.

(** Modelled from the spec: [QuickExists] (section 4.4), one pass over the
    lines that looks at [Host] lines only and builds no block and no
    record; [config.QuickHostExistsInFile] in the calls of [cmd]. *)
Definition QuickExists (fs : FileSystem) (name path : string)
  : bool * option error :=
  match Load fs path with
  | inr e => (false, Some e)
  | inl lines =>
      (isLiteral name && existsb (hostLineDeclares name) lines, None)
  end.

(** The names of [l] in order, each at its first occurrence only. *)
Fixpoint firstOccurrences (seen l : list string) : list string :=
  match l with
  | [] => []
  | x :: rest =>
      if existsb (String.eqb x) seen then firstOccurrences seen rest
      else x :: firstOccurrences (x :: seen) rest
  end.

(** Modelled from the spec: [List] of section 4.4, the records of the
    literal names in the order of their first declaration. *)
Definition ListHosts (fs : FileSystem) (path : string) : list SSHHost + error :=
  match Load fs path with
  | inr e => inr e
  | inl lines =>
      let blocks := assemble lines in
      let names :=
        firstOccurrences []
          (filter isLiteral (flat_map blk_patterns blocks)) in
      inl (flat_map
             (fun name =>
                match lookup path name blocks with
                | inl h => [h]
                | inr _ => []
                end) names)
  end.

(** Modelled from the spec: package [config] as [cmd] calls it, over a file
    system and the default path of the Config Locator. *)
Definition package (fs : FileSystem) (defaultPath : string) : ConfigPackage :=
  {| GetSSHHostFromFile := fun name path => Get fs name path;
     GetSSHHost := fun name => Get fs name defaultPath;
     ParseSSHConfigFile := fun path => ListHosts fs path;
     ParseSSHConfig := ListHosts fs defaultPath;
     QuickHostExistsInFile := fun name path => QuickExists fs name path;
     QuickHostExists := fun name => QuickExists fs name defaultPath |}.

End Registry.



(** * Vocabulary of the properties *)

(** ** Decimal integers *)

(** The value of a run of decimal digits read after [acc]; [None] when a
    byte is no digit. *)
Fixpoint digitsValue (s : string) (acc : Z) : option Z :=
  match s with
  | EmptyString => Some acc
  | String c s' =>
      match digitOf c with
      | Some d => digitsValue s' (acc * 10 + d)
      | None => None
      end
  end.

(** A decimal integer: an optional sign and at least one digit.  Its
    value, whatever its size. *)
Definition decimalInteger (s : string) : option Z :=
  match s with
  | EmptyString => None
  | String c rest =>
      if Ascii.eqb c "-" then
        match rest with
        | EmptyString => None
        | _ => option_map Z.opp (digitsValue rest 0)
        end
      else if Ascii.eqb c "+" then
        match rest with
        | EmptyString => None
        | _ => digitsValue rest 0
        end
      else digitsValue s 0
  end.

(** The values of a Go [int]. *)
Definition fitsInt (z : Z) : Prop := - 2 ^ 63 <= z < 2 ^ 63.

Definition cutoff : Z := 2 ^ (intSize - 1).

(** ** The documents of the info command *)

Definition written (pretty : bool) (v : json) : document :=
  {| doc_indent := pretty; doc_value := v; doc_end := lineFeed |}.

(** The document of a failed lookup. *)
Definition errorValue (hostnameArg code message : string) : json :=
  JObject [("schema", JString "sshm.info.v1");
           ("ok", JBool false);
           ("hostname", JString hostnameArg);
           ("result", JNull);
           ("error", JObject [("code", JString code);
                              ("message", JString message);
                              ("details", JNull)])].

(** The result object for a host and its parsed port. *)
Definition resultOf (hostnameArg : string) (host : SSHHost) (port : option Z)
  : infoResult :=
  {| res_CanonicalName := Name host;
     res_Target :=
       {| tgt_Host := hostnameArg;
          tgt_Hostname := maybeString (Hostname host);
          tgt_User := maybeString (User host);
          tgt_Port := port |};
     res_IdentityFile := maybeString (Identity host);
     res_ProxyJump := maybeString (ProxyJump host);
     res_ProxyCommand := maybeString (ProxyCommand host);
     res_Options := maybeString (Options host);
     res_Tags := Tags host;
     res_RemoteCommand := maybeString (RemoteCommand host);
     res_RequestTTY := maybeString (RequestTTY host);
     res_Source :=
       Some {| src_File := SourceFile host; src_Line := LineNumber host |} |}.

(** The document of a successful lookup. *)
Definition successValue (hostnameArg : string) (host : SSHHost)
  (port : option Z) : json :=
  JObject [("schema", JString "sshm.info.v1");
           ("ok", JBool true);
           ("hostname", JString hostnameArg);
           ("result", marshalResult (resultOf hostnameArg host port));
           ("error", JNull)].

(** How [runInfo] sorts a lookup error: by the text of its message. *)
Definition notFoundText (e : error) : bool := Contains (Error e) "not found".

Definition errorCodeFor (e : error) : string :=
  if notFoundText e then "NOT_FOUND" else "CONFIG_ERROR".

Definition exitCodeFor (e : error) : Z := if notFoundText e then 2 else 1.

(** The error code of a document, when it has an error object. *)
Definition errorCode (v : json) : option json :=
  match member "error" v with
  | Some e => member "code" e
  | None => None
  end.

Definition documentKeys : list string :=
  ["schema"; "ok"; "hostname"; "result"; "error"].

Definition resultKeys : list string :=
  ["canonical_name"; "target"; "identity_file"; "proxy_jump";
   "proxy_command"; "options"; "tags"; "remote_command"; "request_tty";
   "source"].

Definition targetKeys : list string := ["host"; "hostname"; "user"; "port"].

Definition sourceKeys : list string := ["file"; "line"].

Definition errorKeys : list string := ["code"; "message"; "details"].

(** A result object: its members, with the nested target and source. *)
Definition ResultObject (r : json) : Prop :=
  keys r = resultKeys /\
  (exists name, member "canonical_name" r = Some (JString name)) /\
  (exists t, member "target" r = Some t /\ keys t = targetKeys) /\
  (exists s, member "source" r = Some s /\ keys s = sourceKeys).

Definition ErrorObject (e : json) : Prop := keys e = errorKeys.

(** A document of schema sshm.info.v1: the schema identifier, a boolean
    [ok] that tells whether the result is there, and exactly one of the
    result object and the error object, the other being [null]. *)
Definition InfoDocument (v : json) : Prop :=
  keys v = documentKeys /\
  member "schema" v = Some (JString "sshm.info.v1") /\
  exists ok result err,
    member "ok" v = Some (JBool ok) /\
    member "result" v = Some result /\
    member "error" v = Some err /\
    (ok = true <-> result <> JNull) /\
    ((ResultObject result /\ err = JNull) \/
     (result = JNull /\ ErrorObject err)).

(** What [runInfo] writes for a string field of the host. *)
Definition trimmedOrNull (v : string) : json :=
  if String.eqb (TrimSpace v) "" then JNull else JString (TrimSpace v).

(** How a field of [config.SSHHost] holds an optional value: the field is
    a Go [string], which is empty when nothing has set it. *)
Definition held (o : option string) : string :=
  match o with
  | Some v => v
  | None => ""
  end.

(** ** Completion and the direct-connect path *)

(** The host list that completion reads. *)
Definition parsedHosts `{ConfigPackage} (flags : Flags)
  : list SSHHost + error :=
  if negb (String.eqb (configFile flags) "")
  then ParseSSHConfigFile (configFile flags)
  else ParseSSHConfig.

(** Whether the lower-case form of the host's name starts with the
    lower-case form of the partial argument. *)
Definition completes `{UnicodeTables} (toComplete : string) (host : SSHHost)
  : bool :=
  HasPrefix (ToLower (Name host)) (ToLower toComplete).

(** The names of the hosts that complete the partial argument, in the
    order of the host list. *)
Definition matchingNames `{UnicodeTables} (toComplete : string)
  (hosts : list SSHHost) : list string :=
  map Name (filter (completes toComplete) hosts).

(** The existence check that opens [connectToHost]. *)
Definition quickCheck `{ConfigPackage} (flags : Flags) (hostName : string)
  : bool * option error :=
  if negb (String.eqb (configFile flags) "")
  then QuickHostExistsInFile hostName (configFile flags)
  else QuickHostExists hostName.

(** The argument vector as the specification words it: [-F] and the file
    when one is set, [-t] when a terminal is forced, the host name, the
    tokens of the remote command. *)
Definition claimedArgs (flags : Flags) (hostName : string)
  (remoteCommand : list string) : list string :=
  (if String.eqb (configFile flags) "" then [] else ["-F"; configFile flags])
  ++ (if forceTTY flags then ["-t"] else [])
  ++ [hostName]
  ++ remoteCommand.

(** The programs run in a trace, with their arguments. *)
Definition execEvents (t : list event) : list (string * list string) :=
  flat_map (fun e => match e with
                     | EvExec name args => [(name, args)]
                     | _ => []
                     end) t.

(** Events of the history package and of program execution. *)
Definition isHistoryOrExec (e : event) : bool :=
  match e with
  | EvNewHistoryManager | EvRecordConnection _ | EvExec _ _ => true
  | _ => false
  end.


(** ** Statements that the code does not meet

    Each is a sentence of the specification read to the letter; the code
    breaks it at the input given with its refutation below. *)

(** C1 as it is stated: status 2 goes with the kind NotFoundError, status 1
    with every other failure. *)
Definition exitStatusByKind (J : EncodingJSON) (C : ConfigPackage)
  (out : Writer) (hostnameArg cfgFile : string) (pretty : bool) : Prop :=
  let status := snd (runInfo out hostnameArg cfgFile pretty) in
  let found := lookupHost hostnameArg cfgFile in
  (status = 0 <->
   exists host port, found = inl host /\ maybePort (Port host) = inl port) /\
  (status = 2 <-> exists e, found = inr e /\ err_kind e = NotFoundError) /\
  (status = 1 <->
   (exists e, found = inr e /\ err_kind e <> NotFoundError) \/
   (exists host e, found = inl host /\ maybePort (Port host) = inr e)).

(** C4 as it is stated: two failures of one kind are sorted alike. *)
Definition sortedByKind (J : EncodingJSON) (C C' : ConfigPackage)
  (hostnameArg cfgFile : string) : Prop :=
  forall e e' out pretty,
    @lookupHost C hostnameArg cfgFile = inr e ->
    @lookupHost C' hostnameArg cfgFile = inr e' ->
    err_kind e = err_kind e' ->
    snd (@runInfo J C out hostnameArg cfgFile pretty) =
    snd (@runInfo J C' out hostnameArg cfgFile pretty).

(** C5 as it is stated: an empty value that is present is written unlike a
    value that is absent. *)
Definition emptyDistinguished : Prop :=
  orNull JString (maybeString (held (Some ""))) <>
  orNull JString (maybeString (held None)).

(** C10 as it is stated: a blank port is a null port, and a port error
    comes only from a value that is no decimal integer. *)
Definition portErrorOnlyForNonDecimal (J : EncodingJSON) (C : ConfigPackage)
  (out : Writer) (hostnameArg cfgFile : string) (pretty : bool) : Prop :=
  forall host,
    lookupHost hostnameArg cfgFile = inl host ->
    (TrimSpace (Port host) = "" ->
     runInfo out hostnameArg cfgFile pretty =
     (out ++ [written pretty (successValue hostnameArg host None)], 0)) /\
    (snd (runInfo out hostnameArg cfgFile pretty) <> 0 ->
     Port host <> "" /\ decimalInteger (TrimSpace (Port host)) = None).

(** C8 as it is stated: whatever the host name, [ssh] is run with the
    argument vector. *)
Definition invokesSSH (C : ConfigPackage) (H : HistoryPackage) (X : OSExec)
  (flags : Flags) (hostName : string) (remoteCommand : list string) : Prop :=
  execEvents (fst (connectToHost flags hostName remoteCommand [])) =
  [("ssh", claimedArgs flags hostName remoteCommand)].

(** C7 as it is stated: whatever the arguments before it, the completion
    of a partial argument is the list of the matching names. *)
Definition completesByPrefix (U : UnicodeTables) (C : ConfigPackage)
  (flags : Flags) (args : list string) (toComplete : string) : Prop :=
  forall hosts,
    parsedHosts flags = inl hosts ->
    fst (infoCmd_ValidArgsFunction flags args toComplete) =
    matchingNames toComplete hosts.


(** ** Packages, hosts and files to run the code on *)

(** An encoder that takes no raw message for a JSON value; [runInfo] never
    hands it one. *)
Definition noRawMessages : EncodingJSON := {| rawValue := fun _ => None |}.

(** A package every call of which fails with [e]. *)
Definition failingPackage (e : error) : ConfigPackage :=
  {| GetSSHHostFromFile := fun _ _ => inr e;
     GetSSHHost := fun _ => inr e;
     ParseSSHConfigFile := fun _ => inr e;
     ParseSSHConfig := inr e;
     QuickHostExistsInFile := fun _ _ => (false, Some e);
     QuickHostExists := fun _ => (false, Some e) |}.

(** A package that knows the hosts of a list, whatever the file. *)
Definition hostsPackage (hosts : list SSHHost) : ConfigPackage :=
  let get name :=
    match find (fun h => String.eqb (Name h) name) hosts with
    | Some h => inl h
    | None => inr (Registry.notFound name)
    end in
  let has name := (existsb (fun h => String.eqb (Name h) name) hosts, None) in
  {| GetSSHHostFromFile := fun name _ => get name;
     GetSSHHost := get;
     ParseSSHConfigFile := fun _ => inl hosts;
     ParseSSHConfig := inl hosts;
     QuickHostExistsInFile := fun name _ => has name;
     QuickHostExists := has |}.

Definition oneHostPackage (h : SSHHost) : ConfigPackage := hostsPackage [h].

(** What [os.Open] reports for a file that may not be read; the path is
    part of the text. *)
Definition unreadableFile : error :=
  {| err_kind := ParseError;
     Error := "open /srv/not found/config: permission denied" |}.

Definition deniedFile : error :=
  {| err_kind := ParseError;
     Error := "open /etc/ssh/ssh_config: permission denied" |}.

Definition bareHost (name port : string) : SSHHost :=
  {| Name := name; Hostname := ""; User := ""; Port := port; Identity := "";
     ProxyJump := ""; ProxyCommand := ""; Options := ""; Tags := None;
     RemoteCommand := ""; RequestTTY := ""; SourceFile := "/etc/ssh/hosts";
     LineNumber := 1 |}.

Definition dbHost : SSHHost :=
  {| Name := "db"; Hostname := " 10.0.0.7 "; User := ""; Port := "22";
     Identity := "  "; ProxyJump := "bastion"; ProxyCommand := "";
     Options := ""; Tags := None; RemoteCommand := ""; RequestTTY := "yes";
     SourceFile := "/etc/ssh/hosts"; LineNumber := 4 |}.

Definition threeHosts : list SSHHost :=
  [bareHost "prod-server" ""; bareHost "dev-server" "";
   bareHost "staging-db" ""].

Definition noFlags : Flags := {| configFile := ""; forceTTY := false |}.

Definition withConfigAndTTY : Flags :=
  {| configFile := "/srv/ssh/config"; forceTTY := true |}.

(** A history package that records without complaint, and an [ssh] that
    ends well. *)
Definition quietHistory : HistoryPackage :=
  {| HistoryManager := unit;
     NewHistoryManager := inl tt;
     RecordConnection := fun _ _ => None |}.

Definition sshEndsWell : OSExec := {| Run := fun _ _ => None |}.

Definition unlines (l : list string) : string := String.concat nl l.

(** The configuration of [TestRunInfoSuccessJSON]. *)
Definition prodConfig : string :=
  unlines ["# Tags: prod, web";
           "Host prod-web";
           "    HostName 10.0.0.10";
           "    User deploy";
           "    Port 2222";
           "    IdentityFile ~/.ssh/id_prod";
           "    ProxyJump bastion";
           "    ServerAliveInterval 60";
           ""].

(** The configuration of [TestInfoValidArgsFunctionWithSSHConfig]. *)
Definition serversConfig : string :=
  unlines ["Host prod-server";
           "    HostName 192.168.1.1";
           "    User admin";
           "";
           "Host dev-server";
           "    HostName 192.168.1.2";
           "    User developer";
           "";
           "Host staging-db";
           "    HostName 192.168.1.3";
           "    User dbadmin";
           ""].

(** A host with a port that is no number. *)
Definition badPortConfig : string :=
  unlines ["Host x"; "    Port abc"; ""].

Definition sampleFiles : Registry.FileSystem :=
  fun path =>
    if String.eqb path "/tmp/prod" then inl prodConfig
    else if String.eqb path "/tmp/servers" then inl serversConfig
    else if String.eqb path "/tmp/badport" then inl badPortConfig
    else inr ("open " ++ path ++ ": no such file or directory")%string.

Definition sampleConfig : ConfigPackage :=
  Registry.package sampleFiles "/tmp/servers".

(** * More of package [cmd]

    The commands around the functions above: the argument checks and [RunE]
    of the info and completion commands, and of the root command its
    [RunE], [runInteractiveMode] and [Execute]. *)

(** ** [strings.Split] with a separator of one byte *)

(** [strings.Split(s, sep)] for [sep] the one byte [sep]: the pieces of [s]
    between the occurrences of the byte, [[""]] for the empty string. *)
Fixpoint Split (s : string) (sep : ascii) : list string :=
  match s with
  | EmptyString => [EmptyString]
  | String c s' =>
      if Ascii.eqb c sep then EmptyString :: Split s' sep
      else
        match Split s' sep with
        | [] => [String c EmptyString]
        | piece :: pieces => String c piece :: pieces
        end
  end.

(** The byte of the double quote. *)
Definition quote : ascii := ascii_of_N 34.

(** ** The argument checks of cobra *)

(** The errors of the checks: [accepts n arg(s), received m] and
    [invalid argument v for ...]. *)
Inductive ArgsError :=
| WrongCount (accepts received : nat)
| InvalidArgument (arg : string).

(** [cobra.PositionalArgs], the command left out: none of the checks used
    here reads anything of it but [ValidArgs], which is given to
    [OnlyValidArgs]. *)
Definition PositionalArgs := list string -> option ArgsError.

(** [cobra.ExactArgs(n)] *)
Definition ExactArgs (n : nat) : PositionalArgs :=
  fun args =>
    if negb (Nat.eqb (List.length args) n)
    then Some (WrongCount n (List.length args))
    else None.

(** What stands before the first tab of a valid argument; a description
    may follow the tab. *)
Definition beforeTab (v : string) : string :=
  match Split v (ascii_of_N 9) with
  | piece :: _ => piece
  | [] => EmptyString
  end.

(** [cobra.OnlyValidArgs] on a command with these [ValidArgs]. *)
Definition OnlyValidArgs (ValidArgs : list string) : PositionalArgs :=
  fun args =>
    if Nat.ltb 0 (List.length ValidArgs) then
      let validArgs := map beforeTab ValidArgs in
      match
        find (fun v => negb (existsb (String.eqb v) validArgs)) args
      with
      | Some v => Some (InvalidArgument v)
      | None => None
      end
    else None.

(** [cobra.MatchAll(pargs...)]: the error of the first check that fails. *)
Fixpoint MatchAll (pargs : list PositionalArgs) : PositionalArgs :=
  fun args =>
    match pargs with
    | [] => None
    | parg :: rest =>
        match parg args with
        | Some err => Some err
        | None => MatchAll rest args
        end
    end.

(** How a [RunE] ends: it returns [nil], it returns the error of what it
    called last, it ends the process, or it indexes [args] out of range. *)
Inductive ending :=
| Returned
| Exited (code : Z)
| Panicked.

(** ** The completion command *)

Definition completionCmd_ValidArgs : list string :=
  ["bash"; "zsh"; "fish"; "powershell"].

Definition completionCmd_Args : PositionalArgs :=
  MatchAll [ExactArgs 1; OnlyValidArgs completionCmd_ValidArgs].

(** The generators of cobra that [completionCmd] calls on [os.Stdout],
    with the flag each is given. *)
Inductive generator :=
| GenBashCompletionV2 (includeDesc : bool)
| GenZshCompletion
| GenFishCompletion (includeDesc : bool)
| GenPowerShellCompletionWithDesc.

(** [completionCmd.RunE]: [None] when [args[0]] is out of range, else the
    generator whose result it returns, or none when it returns [nil] at
    once. *)
Definition completionCmd_RunE (args : list string)
  : option (option generator) :=
  match args with
  | [] => None
  | shell :: _ =>
      Some
        (if String.eqb shell "bash" then Some (GenBashCompletionV2 true)
         else if String.eqb shell "zsh" then Some GenZshCompletion
         else if String.eqb shell "fish" then Some (GenFishCompletion true)
         else if String.eqb shell "powershell"
              then Some GenPowerShellCompletionWithDesc
         else None)
  end.

(** ** The info command as cobra runs it *)

Definition infoCmd_Args : PositionalArgs := ExactArgs 1.

(** [infoCmd.RunE], with the writer of [cmd.OutOrStdout()] and the value of
    the [--pretty] flag: what is written, and how it ends. *)
Definition infoCmd_RunE `{EncodingJSON} `{ConfigPackage}
  (flags : Flags) (infoPretty : bool) (out : Writer) (args : list string)
  : Writer * ending :=
  match args with
  | [] => (out, Panicked)
  | hostnameArg :: _ =>
      let '(out', exitCode) :=
        runInfo out hostnameArg (configFile flags) infoPretty in
      if negb (exitCode =? 0) then (out', Exited exitCode)
      else (out', Returned)
  end.

(** ** The root command *)

(** Package [ui].  The add form may change the configuration file, so it
    yields, beside its error, package [config] as it answers afterwards.
    Of a call of the interface the model keeps the arguments and the error
    returned: what the interface does while it runs, connecting to the
    hosts that the user picks as the help of the root command has it, is
    the work of package [ui] and leaves no event here. *)
Class UIPackage := {
  RunAddForm : string -> string -> option error * ConfigPackage;
  RunInteractiveMode : list SSHHost -> string -> bool -> string
                       -> option error
}.

(** [fmt.Scanln(&response)] on the standard input: the word read and the
    error. *)
Class StandardInput := { Scanln : string * option error }.

(** What the root command does to the world: the events of the
    direct-connect path, and besides a line on the standard error, a read
    of the standard input and the two calls of package [ui]. *)
Inductive rootEvent :=
| Base (e : event)
| Stderr (text : string)
| EvScanln
| EvRunAddForm (hostName configFile : string)
| EvRunInteractiveMode (hosts : list SSHHost) (configFile : string)
    (searchMode : bool) (version : string).

Definition RootProc (A : Type) : Type :=
  list rootEvent -> list rootEvent * option A.

Definition rret {A} (a : A) : RootProc A := fun t => (t, Some a).

Definition rbind {A B} (m : RootProc A) (k : A -> RootProc B) : RootProc B :=
  fun t =>
    match m t with
    | (t', Some a) => k a t'
    | (t', None) => (t', None)
    end.

Definition remit (e : rootEvent) : RootProc unit :=
  fun t => (t ++ [e], Some tt).

(** A computation of the direct-connect path, run inside the root
    command. *)
Definition lift {A} (m : Proc A) : RootProc A :=
  fun t => let '(t', r) := m [] in (t ++ map Base t', r).

Section RootCommand.

Local Notation "x <- m ;; k" := (rbind m (fun x => k))
  (at level 61, m at next level, right associativity).
Local Notation "m ;; k" := (rbind m (fun _ => k))
  (at level 61, right associativity).

Definition exitNoHosts {A} : RootProc A :=
  lift (fmt_Println "No hosts available, exiting.") ;;
  lift (os_Exit 1).

(** [runInteractiveMode], with the values of [searchMode] and
    [AppVersion]. *)
Definition runInteractiveMode `{ConfigPackage} `{UIPackage} `{StandardInput}
  (flags : Flags) (searchMode : bool) (AppVersion : string)
  : RootProc unit :=
  hosts <-
    match
      (if negb (String.eqb (configFile flags) "")
       then ParseSSHConfigFile (configFile flags)
       else ParseSSHConfig)
    with
    | inr err =>
        lift (log_Fatal
                ("Error reading SSH config file: " ++ Error err)%string)
    | inl hosts => rret hosts
    end ;;
  hosts <-
    (if Nat.eqb (List.length hosts) 0 then
       lift (fmt_Println "No SSH hosts found in your ~/.ssh/config file.") ;;
       lift (fmt_Print "Would you like to add a new host now? [y/N]: ") ;;
       remit EvScanln ;;
       let '(response, err) := Scanln in
       if match err with None => true | Some _ => false end
          && (String.eqb response "y" || String.eqb response "Y")
       then
         remit (EvRunAddForm "" (configFile flags)) ;;
         let '(err, after) := RunAddForm "" (configFile flags) in
         match err with
         | Some e =>
             lift (fmt_Print ("Error adding host: " ++ Error e ++ nl)%string)
         | None => rret tt
         end ;;
         match
           (if negb (String.eqb (configFile flags) "")
            then @ParseSSHConfigFile after (configFile flags)
            else @ParseSSHConfig after)
         with
         | inr _ => exitNoHosts
         | inl hosts =>
             if Nat.eqb (List.length hosts) 0 then exitNoHosts
             else rret hosts
         end
       else exitNoHosts
     else rret hosts) ;;
  remit (EvRunInteractiveMode hosts (configFile flags) searchMode
           AppVersion) ;;
  match RunInteractiveMode hosts (configFile flags) searchMode AppVersion with
  | Some err =>
      lift (log_Fatal
              ("Error running interactive mode: " ++ Error err)%string)
  | None => rret tt
  end.

(** [RootCmd.RunE]: no argument opens the interactive mode; else the first
    argument is the host and the others are the remote command. *)
Definition RootCmd_RunE `{ConfigPackage} `{HistoryPackage} `{OSExec}
  `{UIPackage} `{StandardInput}
  (flags : Flags) (searchMode : bool) (AppVersion : string)
  (args : list string) : RootProc unit :=
  match args with
  | [] => runInteractiveMode flags searchMode AppVersion
  | hostName :: rest =>
      let remoteCommand :=
        if Nat.ltb 1 (List.length args) then rest else [] in
      lift (connectToHost flags hostName remoteCommand)
  end.

(** [Execute], from the error that [RootCmd.Execute()] has returned, [None]
    being [nil]: for an unknown command the text between the first two
    double quotes is taken for a host. *)
Definition Execute `{ConfigPackage} `{HistoryPackage} `{OSExec}
  (flags : Flags) (executed : option string) : RootProc unit :=
  match executed with
  | None => rret tt
  | Some errStr =>
      let failed : RootProc unit :=
        remit (Stderr ("Error: " ++ errStr ++ nl)%string) ;;
        lift (os_Exit 1) in
      if Contains errStr "unknown command" then
        let parts := Split errStr quote in
        if Nat.leb 2 (List.length parts) then
          let potentialHost := nth 1 parts EmptyString in
          lift (connectToHost flags potentialHost [])
        else failed
      else failed
  end.

End RootCommand.

(** ** Vocabulary of the further properties *)

(** The events of the history package in a trace. *)
Definition historyEvents (t : list event) : list event :=
  filter (fun e => match e with
                   | EvNewHistoryManager | EvRecordConnection _ => true
                   | _ => false
                   end) t.

(** The lines printed on the standard output in a trace. *)
Definition printed (t : list event) : list string :=
  flat_map (fun e => match e with
                     | Stdout text => [text]
                     | _ => []
                     end) t.

(** The exit statuses in a trace; the process ends at the first. *)
Definition exits (t : list event) : list Z :=
  flat_map (fun e => match e with
                     | EvExit code => [code]
                     | _ => []
                     end) t.

(** What [connectToHost] does with the history package for a host it has
    found. *)
Definition historyTrace `{HistoryPackage} (hostName : string) : list event :=
  EvNewHistoryManager ::
  match NewHistoryManager with
  | inr e =>
      [Stdout ("Warning: Could not initialize connection history: "
               ++ Error e ++ nl)%string]
  | inl historyManager =>
      EvRecordConnection hostName ::
      match RecordConnection historyManager hostName with
      | Some e =>
          [Stdout ("Warning: Could not record connection history: "
                   ++ Error e ++ nl)%string]
      | None => []
      end
  end.

(** The line that announces an interactive connection. *)
Definition greeting (hostName : string) (remoteCommand : list string)
  : list event :=
  match remoteCommand with
  | [] => [Stdout ("Connecting to " ++ hostName ++ "..." ++ nl)%string]
  | _ :: _ => []
  end.

(** What follows the run of [ssh], by its result. *)
Definition afterRun (result : option RunError) : list event :=
  match result with
  | None => []
  | Some (ExitError (Some status) _) => [EvExit status]
  | Some e =>
      [Stdout ("Error executing SSH command: "
               ++ RunError_Error e ++ nl)%string;
       EvExit 1]
  end.

(** The tuple of the interactive modes started in a trace of the root
    command. *)
Definition startedModes (t : list rootEvent) : list (list SSHHost) :=
  flat_map (fun e => match e with
                     | EvRunInteractiveMode hosts _ _ _ => [hosts]
                     | _ => []
                     end) t.

Definition addForms (t : list rootEvent) : list (string * string) :=
  flat_map (fun e => match e with
                     | EvRunAddForm hostName cfg => [(hostName, cfg)]
                     | _ => []
                     end) t.

Definition noByte (c : ascii) (s : string) : bool :=
  allBytes (fun b => negb (Ascii.eqb b c)) s.

(** The events of the direct-connect kind in a trace of the root
    command. *)
Definition baseEvents (t : list rootEvent) : list event :=
  flat_map (fun e => match e with
                     | Base b => [b]
                     | _ => []
                     end) t.

(** Whether the standard input was read. *)
Definition hasRead (t : list rootEvent) : bool :=
  existsb (fun e => match e with
                    | EvScanln => true
                    | _ => false
                    end) t.

(** Whether the answer to the prompt is a yes. *)
Definition saysYes `{StandardInput} : bool :=
  match snd Scanln with
  | None => String.eqb (fst Scanln) "y" || String.eqb (fst Scanln) "Y"
  | Some _ => false
  end.

(** The hosts that the configuration holds once the add form has run. *)
Definition hostsAfterForm `{UIPackage} (flags : Flags)
  : list SSHHost + error :=
  @parsedHosts (snd (RunAddForm "" (configFile flags))) flags.

(** ** Responses, packages and inputs to run the further code on *)

(** A raw message that the encoder does not take for a JSON value. *)
Definition invalidDetails `{EncodingJSON} (resp : infoResponse) : Prop :=
  exists e raw,
    resp_Error resp = Some e /\ ie_Details e = Some raw /\
    rawValue raw = None.

(** A response whose error holds bytes that no encoder takes. *)
Definition brokenResponse : infoResponse :=
  {| resp_Schema := "sshm.info.v1"; resp_OK := false; resp_Hostname := "db";
     resp_Result := None;
     resp_Error :=
       Some {| ie_Code := "CONFIG_ERROR"; ie_Message := "bad";
               ie_Details := Some "{" |} |}.

(** An interface that ends well, and an input at its end. *)
Definition plainUI : UIPackage :=
  {| RunAddForm := fun _ _ => (None, hostsPackage threeHosts);
     RunInteractiveMode := fun _ _ _ _ => None |}.

Definition noInput : StandardInput :=
  {| Scanln := ("", Some {| err_kind := ParseError; Error := "EOF" |}) |}.

(** An [ssh] that ends with status 255, as it does when it cannot
    connect. *)
Definition sshFails : OSExec :=
  {| Run := fun _ _ => Some (ExitError (Some 255) "exit status 255") |}.

(** A user who says yes to the prompt. *)
Definition yesInput : StandardInput := {| Scanln := ("y", None) |}.

(** * Properties *)

(** ** The functions of the standard library, on examples *)

Example TrimSpace_ascii :
  TrimSpace (String (ascii_of_N 9) "  a b " ++ String (ascii_of_N 13) nl)
  = "a b".
Proof. reflexivity. Qed.

(** U+00A0 before and U+2003 after the text are white space; a lone
    byte 160 is not. *)
Example TrimSpace_unicode :
  TrimSpace (string_of_list_ascii (bytes [194; 160; 97; 226; 128; 131]%N))
  = "a" /\
  TrimSpace (string_of_list_ascii (bytes [160; 97]%N))
  = string_of_list_ascii (bytes [160; 97]%N).
Proof. split; reflexivity. Qed.

Example ToLower_ascii :
  @ToLower asciiOnlyTables "DEV-Server_9" = "dev-server_9".
Proof. reflexivity. Qed.

Example Contains_not_found :
  Contains "host 'missing' not found" "not found" = true /\
  Contains "permission denied" "not found" = false.
Proof. split; reflexivity. Qed.

Example Atoi_port : Atoi "2222" = inl 2222.
Proof. reflexivity. Qed.

Example Atoi_letters : Atoi "abc" = inr ErrSyntax.
Proof. reflexivity. Qed.

Example Atoi_signs : Atoi "-0" = inl 0 /\ Atoi "+" = inr ErrSyntax.
Proof. split; reflexivity. Qed.

Example Atoi_limits :
  Atoi "9223372036854775807" = inl 9223372036854775807 /\
  Atoi "9223372036854775808" = inr ErrRange /\
  Atoi "-9223372036854775808" = inl (-9223372036854775808).
Proof. repeat split; vm_compute; reflexivity. Qed.

(** ** Decimal integers and [strconv.Atoi] *)

Lemma digitOf_range (c : ascii) (d : Z) : digitOf c = Some d -> 0 <= d <= 9.
Proof.
  unfold digitOf.
  destruct (_ && _) eqn:E; [|discriminate].
  intros [= <-]. apply andb_true_iff in E. lia.
Qed.

Lemma digitsValue_grows (s : string) :
  forall acc v, 0 <= acc -> digitsValue s acc = Some v -> acc <= v.
Proof.
  induction s as [|c s IH]; cbn [digitsValue]; intros acc v Hacc.
  - intros [= <-]. lia.
  - destruct (digitOf c) as [d|] eqn:Ed; [|discriminate].
    apply digitOf_range in Ed. intros Hv.
    apply IH in Hv; lia.
Qed.

Lemma parseUintLoop_spec (s : string) :
  forall n v, 0 <= n < 2 ^ 64 ->
    (parseUintLoop s n = inl v <-> digitsValue s n = Some v /\ v < 2 ^ 64).
Proof.
  induction s as [|c s IH]; cbn [parseUintLoop digitsValue]; intros n v Hn.
  - split.
    + intros [= <-]. split; [reflexivity | lia].
    + intros [[= <-] _]. reflexivity.
  - destruct (digitOf c) as [d|] eqn:Ed.
    + pose proof (digitOf_range _ _ Ed) as Hd.
      destruct (2 ^ 64 <=? n * 10 + d) eqn:Eo.
      * apply Z.leb_le in Eo. split; [discriminate|].
        intros [Hv Hlt]. apply digitsValue_grows in Hv; lia.
      * apply Z.leb_gt in Eo. apply IH. lia.
    + split; [discriminate | intros [? _]; discriminate].
Qed.

Lemma digitsValue_nonneg (s : string) (v : Z) :
  digitsValue s 0 = Some v -> 0 <= v.
Proof. apply digitsValue_grows. lia. Qed.

Lemma cutoff_value : cutoff = 2 ^ 63.
Proof. reflexivity. Qed.

Lemma parseUint_from_zero (body : string) (v : Z) :
  parseUintLoop body 0 = inl v <->
  digitsValue body 0 = Some v /\ v < 2 ^ 64.
Proof. apply parseUintLoop_spec. lia. Qed.

Lemma Atoi_negative (body : string) (z : Z) :
  match parseUintLoop body 0 with
  | inr e => inr e
  | inl un => if cutoff <? un then inr ErrRange else inl (- un)
  end = inl z <->
  option_map Z.opp (digitsValue body 0) = Some z /\ fitsInt z.
Proof.
  unfold fitsInt. rewrite cutoff_value.
  destruct (parseUintLoop body 0) as [un|e] eqn:Ep.
  - apply parseUint_from_zero in Ep. destruct Ep as [Ev Hlt].
    rewrite Ev. cbn [option_map].
    pose proof (digitsValue_nonneg _ _ Ev).
    destruct (2 ^ 63 <? un) eqn:Ec.
    + apply Z.ltb_lt in Ec.
      split; [discriminate | intros [[= <-] ?]; lia].
    + apply Z.ltb_ge in Ec.
      split.
      * intros [= <-]. split; [reflexivity | lia].
      * intros [[= <-] _]. reflexivity.
  - split; [discriminate|].
    destruct (digitsValue body 0) as [un|] eqn:Ev; cbn [option_map];
      [|intros [? _]; discriminate].
    intros [[= <-] Hfit].
    assert (parseUintLoop body 0 = inl un) as Hp
        by (apply parseUint_from_zero; split; [assumption | lia]).
    congruence.
Qed.

Lemma Atoi_positive (body : string) (z : Z) :
  match parseUintLoop body 0 with
  | inr e => inr e
  | inl un => if cutoff <=? un then inr ErrRange else inl un
  end = inl z <->
  digitsValue body 0 = Some z /\ fitsInt z.
Proof.
  unfold fitsInt. rewrite cutoff_value.
  destruct (parseUintLoop body 0) as [un|e] eqn:Ep.
  - apply parseUint_from_zero in Ep. destruct Ep as [Ev Hlt].
    rewrite Ev.
    pose proof (digitsValue_nonneg _ _ Ev).
    destruct (2 ^ 63 <=? un) eqn:Ec.
    + apply Z.leb_le in Ec.
      split; [discriminate | intros [[= <-] ?]; lia].
    + apply Z.leb_gt in Ec.
      split.
      * intros [= <-]. split; [reflexivity | lia].
      * intros [[= <-] _]. reflexivity.
  - split; [discriminate|].
    intros [Ev Hfit].
    pose proof (digitsValue_nonneg _ _ Ev).
    assert (parseUintLoop body 0 = inl z) as Hp
        by (apply parseUint_from_zero; split; [assumption | lia]).
    congruence.
Qed.

(** [Atoi] succeeds exactly on the decimal integers that fit an [int], and
    returns their value. *)
Lemma Atoi_spec (s : string) (z : Z) :
  Atoi s = inl z <-> decimalInteger s = Some z /\ fitsInt z.
Proof.
  unfold Atoi, decimalInteger. fold cutoff.
  destruct s as [|c rest];
    [split; [discriminate | intros [? _]; discriminate]|].
  destruct (Ascii.eqb c "-") eqn:Em.
  - rewrite orb_true_r.
    destruct rest as [|c' rest'];
      [split; [discriminate | intros [? _]; discriminate]|].
    apply Atoi_negative.
  - rewrite orb_false_r.
    destruct (Ascii.eqb c "+") eqn:Epl.
    + destruct rest as [|c' rest'];
        [split; [discriminate | intros [? _]; discriminate]|].
      apply Atoi_positive.
    + apply Atoi_positive.
Qed.

(** ** The info command *)

Section Info.

Context {J : EncodingJSON} {C : ConfigPackage}.

(** [runInfo] by cases: what it writes and what it returns.  Marshalling
    never fails here, since [runInfo] leaves every [Details] nil. *)
Lemma runInfo_cases (out : Writer) (hostnameArg cfgFile : string)
  (pretty : bool) :
  runInfo out hostnameArg cfgFile pretty =
  match lookupHost hostnameArg cfgFile with
  | inr e =>
      (out ++ [written pretty
                 (errorValue hostnameArg (errorCodeFor e) (Error e))],
       exitCodeFor e)
  | inl host =>
      match maybePort (Port host) with
      | inr _ =>
          (out ++ [written pretty
                     (errorValue hostnameArg "CONFIG_ERROR"
                        "invalid port in host configuration")], 1)
      | inl port =>
          (out ++ [written pretty (successValue hostnameArg host port)], 0)
      end
  end.
Proof.
  unfold runInfo, errorCodeFor, exitCodeFor, notFoundText.
  destruct (lookupHost hostnameArg cfgFile) as [host|e].
  - destruct (maybePort (Port host)) as [port|perr];
      destruct pretty; reflexivity.
  - destruct (Contains (Error e) "not found"); destruct pretty; reflexivity.
Qed.

Lemma maybeString_spec (v : string) :
  maybeString v =
  if String.eqb (TrimSpace v) "" then None else Some (TrimSpace v).
Proof. reflexivity. Qed.

(** [maybePort] fails exactly on a value that is not blank and is no
    decimal integer that fits an [int]. *)
Lemma maybePort_error (v : string) :
  (exists e, maybePort v = inr e) <->
  TrimSpace v <> "" /\
  ~ (exists z, decimalInteger (TrimSpace v) = Some z /\ fitsInt z).
Proof.
  unfold maybePort.
  destruct (String.eqb (TrimSpace v) "") eqn:Eb.
  - apply String.eqb_eq in Eb. split.
    + intros [e He]. discriminate.
    + intros [Hne _]. contradiction.
  - apply String.eqb_neq in Eb.
    destruct (Atoi (TrimSpace v)) as [z|e] eqn:Ea.
    + apply Atoi_spec in Ea. split.
      * intros [e He]. discriminate.
      * intros [_ Hno]. exfalso. apply Hno. exists z. exact Ea.
    + split.
      * intros _. split; [exact Eb|].
        intros [z Hz]. apply Atoi_spec in Hz. congruence.
      * intros _. exists e. reflexivity.
Qed.

Lemma maybePort_blank (v : string) :
  TrimSpace v = "" -> maybePort v = inl None.
Proof.
  intros Hb. unfold maybePort. rewrite Hb. reflexivity.
Qed.

Lemma maybePort_value (v : string) (z : Z) :
  maybePort v = inl (Some z) <->
  TrimSpace v <> "" /\ decimalInteger (TrimSpace v) = Some z /\ fitsInt z.
Proof.
  unfold maybePort.
  destruct (String.eqb (TrimSpace v) "") eqn:Eb.
  - apply String.eqb_eq in Eb.
    split; [discriminate | intros [? _]; contradiction].
  - apply String.eqb_neq in Eb.
    destruct (Atoi (TrimSpace v)) as [p|e] eqn:Ea.
    + pose proof (proj1 (Atoi_spec _ _) Ea) as Hp. split.
      * intros [= <-]. split; [exact Eb | exact Hp].
      * intros [_ Hz]. apply Atoi_spec in Hz. congruence.
    + split; [discriminate|].
      intros [_ Hz]. apply Atoi_spec in Hz. congruence.
Qed.

(** *** Exit status and error code *)

(** C1, as amended.  The exit status of [runInfo] is 0 exactly when the
    lookup and the port parse succeed; it is 2, with error code NOT_FOUND,
    exactly when the lookup fails with a message that contains "not found";
    it is 1, with error code CONFIG_ERROR, for every other failed lookup and
    for a port that does not parse.  The error code written is one of
    NOT_FOUND, CONFIG_ERROR and INTERNAL. *)
Theorem runInfo_exit_status (out : Writer) (hostnameArg cfgFile : string)
  (pretty : bool) :
  let status := snd (runInfo out hostnameArg cfgFile pretty) in
  let found := lookupHost hostnameArg cfgFile in
  (status = 0 <->
   exists host port, found = inl host /\ maybePort (Port host) = inl port) /\
  (status = 2 <->
   exists e, found = inr e /\ Contains (Error e) "not found" = true) /\
  (status = 1 <->
   (exists e, found = inr e /\ Contains (Error e) "not found" = false) \/
   (exists host e, found = inl host /\ maybePort (Port host) = inr e)) /\
  exists v,
    fst (runInfo out hostnameArg cfgFile pretty) = out ++ [written pretty v] /\
    (status = 0 -> member "error" v = Some JNull) /\
    (status = 2 -> errorCode v = Some (JString "NOT_FOUND")) /\
    (status = 1 -> errorCode v = Some (JString "CONFIG_ERROR")) /\
    (forall code, errorCode v = Some code ->
       In code [JString "NOT_FOUND"; JString "CONFIG_ERROR";
                JString "INTERNAL"]).
Proof.
  cbv zeta. rewrite runInfo_cases.
  unfold exitCodeFor, errorCodeFor, notFoundText.
  destruct (lookupHost hostnameArg cfgFile) as [host|e].
  - destruct (maybePort (Port host)) as [port|perr] eqn:Ep; cbn [fst snd].
    + repeat split; try discriminate.
      * intros _. exists host, port. split; [reflexivity | exact Ep].
      * intros [e [He _]]. discriminate.
      * intros [[e [He _]]|[h [e [Hh He]]]]; [discriminate|].
        injection Hh as <-. congruence.
      * eexists. split; [reflexivity|].
        repeat split; try discriminate.
    + repeat split; try discriminate.
      * intros [h [p [Hh Hp]]]. injection Hh as <-. congruence.
      * intros [e [He _]]. discriminate.
      * intros _. right. exists host, perr. split; [reflexivity | exact Ep].
      * eexists. split; [reflexivity|].
        repeat split; try discriminate.
        intros code [= <-]. right. left. reflexivity.
  - destruct (Contains (Error e) "not found") eqn:Ec; cbn [fst snd].
    + repeat split; try discriminate.
      * intros [h [p [Hh _]]]. discriminate.
      * intros _. exists e. split; [reflexivity | exact Ec].
      * intros [[e' [He Hc]]|[h [e' [Hh _]]]]; [|discriminate].
        injection He as <-. congruence.
      * eexists. split; [reflexivity|].
        repeat split; try discriminate.
        intros code [= <-]. left. reflexivity.
    + repeat split; try discriminate.
      * intros [h [p [Hh _]]]. discriminate.
      * intros [e' [He Hc]]. injection He as <-. congruence.
      * intros _. left. exists e. split; [reflexivity | exact Ec].
      * eexists. split; [reflexivity|].
        repeat split; try discriminate.
        intros code [= <-]. right. left. reflexivity.
Qed.

(** *** The shape of the document *)

Lemma errorValue_InfoDocument (hostnameArg code message : string) :
  InfoDocument (errorValue hostnameArg code message).
Proof.
  repeat split.
  exists false, JNull,
    (JObject [("code", JString code); ("message", JString message);
              ("details", JNull)]).
  repeat split; try discriminate; try congruence.
  right. split; reflexivity.
Qed.

Lemma successValue_InfoDocument (hostnameArg : string) (host : SSHHost)
  (port : option Z) :
  InfoDocument (successValue hostnameArg host port).
Proof.
  repeat split.
  exists true, (marshalResult (resultOf hostnameArg host port)), JNull.
  repeat split; try discriminate.
  left. repeat split.
  - exists (Name host). reflexivity.
  - eexists. split; reflexivity.
  - eexists. split; reflexivity.
Qed.

(** C2.  [runInfo] writes one document, laid out as [--pretty] asks, and it
    is a document of schema sshm.info.v1: schema identifier, boolean [ok]
    that is true exactly when the result is there, and exactly one of the
    result object and the error object.  The text that [writeInfoJSON]
    keeps for a failed marshalling is such a document too. *)
Theorem runInfo_writes_info_document (out : Writer)
  (hostnameArg cfgFile : string) (pretty : bool) :
  (exists v,
     fst (runInfo out hostnameArg cfgFile pretty) = out ++ [written pretty v]
     /\ InfoDocument v) /\
  InfoDocument internalErrorValue.
Proof.
  split.
  - rewrite runInfo_cases.
    destruct (lookupHost hostnameArg cfgFile) as [host|e].
    + destruct (maybePort (Port host)) as [port|perr]; eexists;
        (split; [reflexivity|]).
      * apply successValue_InfoDocument.
      * apply errorValue_InfoDocument.
    + eexists. split; [reflexivity|]. apply errorValue_InfoDocument.
  - apply (errorValue_InfoDocument "" "INTERNAL" "failed to marshal JSON").
Qed.

(** *** Optional strings *)

Lemma orNull_maybeString (v : string) :
  orNull JString (maybeString v) = trimmedOrNull v.
Proof.
  unfold maybeString, trimmedOrNull.
  destruct (String.eqb (TrimSpace v) ""); reflexivity.
Qed.

(** C5, as amended.  For each of the eight optional string fields of a
    host, the document holds [null] when the value is empty or white space
    only, and the value without its surrounding white space otherwise; an
    empty value is written as an unset one is. *)
Theorem runInfo_optional_strings (out : Writer)
  (hostnameArg cfgFile : string) (pretty : bool) (host : SSHHost)
  (port : option Z) :
  lookupHost hostnameArg cfgFile = inl host ->
  maybePort (Port host) = inl port ->
  exists v result target,
    fst (runInfo out hostnameArg cfgFile pretty) = out ++ [written pretty v]
    /\ member "result" v = Some result
    /\ member "target" result = Some target
    /\ member "hostname" target = Some (trimmedOrNull (Hostname host))
    /\ member "user" target = Some (trimmedOrNull (User host))
    /\ member "identity_file" result = Some (trimmedOrNull (Identity host))
    /\ member "proxy_jump" result = Some (trimmedOrNull (ProxyJump host))
    /\ member "proxy_command" result
       = Some (trimmedOrNull (ProxyCommand host))
    /\ member "options" result = Some (trimmedOrNull (Options host))
    /\ member "remote_command" result
       = Some (trimmedOrNull (RemoteCommand host))
    /\ member "request_tty" result = Some (trimmedOrNull (RequestTTY host))
    /\ trimmedOrNull "" = JNull.
Proof.
  intros Hfound Hport.
  rewrite runInfo_cases, Hfound, Hport.
  eexists. eexists. eexists.
  split; [reflexivity|].
  split; [reflexivity|].
  split; [reflexivity|].
  cbn [member marshalTarget marshalResult resultOf res_Target tgt_Hostname
         tgt_User res_IdentityFile res_ProxyJump res_ProxyCommand res_Options
         res_RemoteCommand res_RequestTTY].
  rewrite <- !orNull_maybeString.
  repeat split.
Qed.

(** *** The port *)

(** C6.  A host whose port value is there and is no decimal integer makes
    [runInfo] fail: exit status 1, no result, and an error object that
    names the port. *)
Theorem runInfo_rejects_non_numeric_port (out : Writer)
  (hostnameArg cfgFile : string) (pretty : bool) (host : SSHHost) :
  lookupHost hostnameArg cfgFile = inl host ->
  TrimSpace (Port host) <> "" ->
  decimalInteger (TrimSpace (Port host)) = None ->
  runInfo out hostnameArg cfgFile pretty =
  (out ++ [written pretty
             (errorValue hostnameArg "CONFIG_ERROR"
                "invalid port in host configuration")], 1).
Proof.
  intros Hfound Hthere Hnum.
  assert (exists e, maybePort (Port host) = inr e) as [e He].
  { apply maybePort_error. split; [exact Hthere|].
    intros [z [Hz _]]. congruence. }
  rewrite runInfo_cases, Hfound, He. reflexivity.
Qed.

(** C10, as amended.  A host whose port value is empty or white space only
    makes [runInfo] succeed with a null port and no error; it fails on the
    port exactly when the value, white space removed, is not empty and is
    not a decimal integer within the range of [int]. *)
Theorem runInfo_port_outcomes (out : Writer)
  (hostnameArg cfgFile : string) (pretty : bool) (host : SSHHost) :
  lookupHost hostnameArg cfgFile = inl host ->
  (TrimSpace (Port host) = "" ->
   runInfo out hostnameArg cfgFile pretty =
   (out ++ [written pretty (successValue hostnameArg host None)], 0)) /\
  (snd (runInfo out hostnameArg cfgFile pretty) <> 0 <->
   TrimSpace (Port host) <> "" /\
   ~ (exists z,
        decimalInteger (TrimSpace (Port host)) = Some z /\ fitsInt z)).
Proof.
  intros Hfound. rewrite runInfo_cases, Hfound. split.
  - intros Hblank. rewrite (maybePort_blank _ Hblank). reflexivity.
  - rewrite <- maybePort_error.
    destruct (maybePort (Port host)) as [port|e]; cbn [snd]; split.
    + intros Hne. contradiction.
    + intros [e He]. discriminate.
    + intros _. exists e. reflexivity.
    + intros _. discriminate.
Qed.

End Info.

(** *** Errors are sorted by their text *)

(** C4, as amended.  [runInfo] renders a failed lookup from the text of the
    error alone: the message goes into the error object as it is, [details]
    is null, the code is NOT_FOUND exactly when the message contains
    "not found" and CONFIG_ERROR otherwise.  Two errors with one text give
    one output, whatever their kinds. *)
Theorem runInfo_sorts_errors_by_text (J : EncodingJSON)
  (C C' : ConfigPackage) (out : Writer)
  (hostnameArg cfgFile : string) (pretty : bool) (e e' : error) :
  @lookupHost C hostnameArg cfgFile = inr e ->
  @lookupHost C' hostnameArg cfgFile = inr e' ->
  Error e = Error e' ->
  @runInfo J C out hostnameArg cfgFile pretty =
  @runInfo J C' out hostnameArg cfgFile pretty /\
  @runInfo J C out hostnameArg cfgFile pretty =
  (out ++ [written pretty
             (errorValue hostnameArg
                (if Contains (Error e) "not found" then "NOT_FOUND"
                 else "CONFIG_ERROR")
                (Error e))],
   if Contains (Error e) "not found" then 2 else 1).
Proof.
  intros He He' Htext.
  rewrite (@runInfo_cases J C), (@runInfo_cases J C'), He, He'.
  unfold errorCodeFor, exitCodeFor, notFoundText.
  rewrite <- Htext. split; reflexivity.
Qed.

(** ** Runs of the info command *)

(** A file that may not be read, under a path that holds the words
    "not found": the failure is a ParseError, the exit status is 2 and the
    code NOT_FOUND. *)
Lemma runInfo_exit_status_not_by_kind :
  let C := failingPackage unreadableFile in
  @lookupHost C "web1" "/srv/not found/config" = inr unreadableFile /\
  err_kind unreadableFile = ParseError /\
  @runInfo noRawMessages C [] "web1" "/srv/not found/config" false =
  ([written false (errorValue "web1" "NOT_FOUND" (Error unreadableFile))], 2) /\
  ~ exitStatusByKind noRawMessages C [] "web1" "/srv/not found/config" false.
Proof.
  cbv zeta. repeat split.
  intros [_ [H2 _]].
  destruct (proj1 H2 eq_refl) as [e [He Hk]].
  injection He as <-. discriminate.
Qed.

Lemma runInfo_exit_status_witness :
  snd (@runInfo noRawMessages (failingPackage unreadableFile) []
         "web1" "/srv/not found/config" false) = 2.
Proof.
  apply (proj1 (proj2 (runInfo_exit_status (J := noRawMessages)
                         (C := failingPackage unreadableFile)
                         [] "web1" "/srv/not found/config" false))).
  exists unreadableFile. split; reflexivity.
Defined.

(** Two ParseErrors, one status 1 with CONFIG_ERROR, the other status 2
    with NOT_FOUND: only their texts differ. *)
Lemma runInfo_sorts_one_kind_two_ways :
  err_kind deniedFile = err_kind unreadableFile /\
  snd (@runInfo noRawMessages (failingPackage deniedFile) [] "web1" "cfg"
         false) = 1 /\
  snd (@runInfo noRawMessages (failingPackage unreadableFile) [] "web1" "cfg"
         false) = 2 /\
  ~ sortedByKind noRawMessages (failingPackage deniedFile)
      (failingPackage unreadableFile) "web1" "cfg".
Proof.
  repeat split.
  intros H.
  specialize (H deniedFile unreadableFile [] false eq_refl eq_refl eq_refl).
  discriminate H.
Qed.

(** A NotFoundError and a ParseError with one text: one output. *)
Lemma runInfo_sorts_errors_by_text_witness :
  let e := {| err_kind := NotFoundError; Error := Error unreadableFile |} in
  @runInfo noRawMessages (failingPackage e) [] "web1" "cfg" true =
  @runInfo noRawMessages (failingPackage unreadableFile) [] "web1" "cfg" true.
Proof.
  cbv zeta.
  apply (runInfo_sorts_errors_by_text noRawMessages
           (failingPackage
              {| err_kind := NotFoundError; Error := Error unreadableFile |})
           (failingPackage unreadableFile) [] "web1" "cfg" true
           {| err_kind := NotFoundError; Error := Error unreadableFile |}
           unreadableFile);
    reflexivity.
Defined.

(** Both are written as [null]: for a host whose [User] is the empty
    string the document has [null] for the user. *)
Lemma empty_string_written_as_null :
  orNull JString (maybeString (held (Some ""))) = JNull /\
  orNull JString (maybeString (held None)) = JNull /\
  member "user"
    (marshalTarget
       (res_Target (resultOf "db" (bareHost "db" "22") (Some 22)))) =
  Some JNull /\
  @runInfo noRawMessages (oneHostPackage (bareHost "db" "22")) [] "db" "" false
  = ([written false (successValue "db" (bareHost "db" "22") (Some 22))], 0) /\
  ~ emptyDistinguished.
Proof.
  repeat split. intros Hd. apply Hd. reflexivity.
Qed.

Lemma runInfo_optional_strings_witness :
  exists v result target,
    fst (@runInfo noRawMessages (oneHostPackage dbHost) [] "db" "" false)
    = [written false v]
    /\ member "result" v = Some result
    /\ member "target" result = Some target
    /\ member "hostname" target = Some (JString "10.0.0.7")
    /\ member "user" target = Some JNull
    /\ member "identity_file" result = Some JNull.
Proof.
  destruct (runInfo_optional_strings (J := noRawMessages)
              (C := oneHostPackage dbHost)
              [] "db" "" false dbHost (Some 22) eq_refl eq_refl)
    as [v [result [target [Hw [Hr [Ht [Hh [Hu [Hi _]]]]]]]]].
  exists v, result, target.
  repeat split; assumption.
Defined.

Lemma runInfo_rejects_non_numeric_port_witness :
  @runInfo noRawMessages (oneHostPackage (bareHost "x" "abc")) [] "x" "" false
  = ([written false
        (errorValue "x" "CONFIG_ERROR" "invalid port in host configuration")],
     1).
Proof.
  apply (runInfo_rejects_non_numeric_port (J := noRawMessages)
           (C := oneHostPackage (bareHost "x" "abc")) [] "x" "" false
           (bareHost "x" "abc")).
  - reflexivity.
  - vm_compute. discriminate.
  - reflexivity.
Defined.

(** A port of twenty nines is a decimal integer, and a port error. *)
Lemma runInfo_rejects_huge_port :
  let host := bareHost "big" "99999999999999999999" in
  decimalInteger (TrimSpace (Port host)) = Some 99999999999999999999 /\
  maybePort (Port host) = inr ErrRange /\
  @runInfo noRawMessages (oneHostPackage host) [] "big" "" false =
  ([written false
      (errorValue "big" "CONFIG_ERROR" "invalid port in host configuration")],
   1) /\
  ~ portErrorOnlyForNonDecimal noRawMessages (oneHostPackage host)
      [] "big" "" false.
Proof.
  cbv zeta. repeat split.
  intros H.
  destruct (H (bareHost "big" "99999999999999999999") eq_refl) as [_ Hport].
  assert (snd (@runInfo noRawMessages
                 (oneHostPackage (bareHost "big" "99999999999999999999"))
                 [] "big" "" false) <> 0) as Hne by (vm_compute; discriminate).
  destruct (Hport Hne) as [_ Hd].
  vm_compute in Hd. discriminate Hd.
Qed.

Lemma runInfo_port_outcomes_witness :
  @runInfo noRawMessages (oneHostPackage (bareHost "idle" "  ")) []
    "idle" "" false =
  ([written false (successValue "idle" (bareHost "idle" "  ") None)], 0).
Proof.
  apply (proj1 (runInfo_port_outcomes (J := noRawMessages)
                  (C := oneHostPackage (bareHost "idle" "  "))
                  [] "idle" "" false (bareHost "idle" "  ")
                  eq_refl)).
  reflexivity.
Defined.

(** ** The registry: quick check and full lookup *)

Module RegistryFacts.
Import Registry.











End RegistryFacts.

(** ** Completion of host names *)

Section Completion.

Context {U : UnicodeTables} {C : ConfigPackage}.

Lemma completions_loop (toComplete : string) (hosts : list SSHHost) :
  forall acc,
    fold_left
      (fun completions host =>
         if HasPrefix (ToLower (Name host)) (ToLower toComplete)
         then completions ++ [Name host]
         else completions)
      hosts acc =
    acc ++ matchingNames toComplete hosts.
Proof.
  unfold matchingNames, completes.
  induction hosts as [|h hosts IH]; intros acc; cbn [fold_left filter map].
  - symmetry. apply app_nil_r.
  - rewrite IH.
    destruct (HasPrefix (ToLower (Name h)) (ToLower toComplete)).
    + cbn [map]. rewrite <- app_assoc. reflexivity.
    + reflexivity.
Qed.

Lemma HasPrefix_empty (s : string) : HasPrefix s "" = true.
Proof. destruct s; reflexivity. Qed.

Lemma ToLower_empty : ToLower "" = "".
Proof. reflexivity. Qed.

Lemma matchingNames_empty (hosts : list SSHHost) :
  matchingNames "" hosts = map Name hosts.
Proof.
  unfold matchingNames, completes. rewrite ToLower_empty.
  induction hosts as [|h hosts IH]; cbn [filter map].
  - reflexivity.
  - rewrite HasPrefix_empty. cbn [map]. congruence.
Qed.

(** C7, as amended.  When no argument has been given before the one being
    completed, completion returns exactly the names of the parsed hosts
    whose lower-case form starts with the lower-case partial argument: all
    the names for the empty partial argument, none, and no error, for an
    empty host list.  When an argument has been given already, it returns
    no completion. *)
Theorem infoCmd_completion (flags : Flags) (args : list string)
  (toComplete : string) (hosts : list SSHHost) :
  parsedHosts flags = inl hosts ->
  (args = [] ->
   infoCmd_ValidArgsFunction flags args toComplete =
   (matchingNames toComplete hosts, ShellCompDirectiveNoFileComp)) /\
  (args = [] -> toComplete = "" ->
   fst (infoCmd_ValidArgsFunction flags args toComplete) = map Name hosts) /\
  (args = [] -> hosts = [] ->
   infoCmd_ValidArgsFunction flags args toComplete =
   ([], ShellCompDirectiveNoFileComp)) /\
  (args <> [] ->
   infoCmd_ValidArgsFunction flags args toComplete =
   ([], ShellCompDirectiveNoFileComp)).
Proof.
  intros Hparsed.
  assert (infoCmd_ValidArgsFunction flags [] toComplete =
          (matchingNames toComplete hosts, ShellCompDirectiveNoFileComp))
    as Hfirst.
  { unfold infoCmd_ValidArgsFunction. cbn [List.length Nat.eqb negb].
    unfold parsedHosts in Hparsed. rewrite Hparsed.
    rewrite completions_loop. reflexivity. }
  repeat split.
  - intros ->. exact Hfirst.
  - intros -> ->. rewrite Hfirst. apply matchingNames_empty.
  - intros -> ->. rewrite Hfirst. reflexivity.
  - intros Hargs. destruct args as [|a args]; [contradiction|]. reflexivity.
Qed.

End Completion.

(** ** The direct-connect path *)

Section Connect.

Context {C : ConfigPackage} {H : HistoryPackage} {X : OSExec}.

Ltac run_connect :=
  unfold connectToHost, bind, ret, emit, os_Exit, log_Fatal, fmt_Print,
    fmt_Println, claimedArgs.

(** C8, as amended.  For every host name that passes the existence check
    (the check finds the host and does not fail), every forced-terminal
    flag, configuration file and remote command, [connectToHost] runs
    [ssh], once, with the arguments in this order: [-F] and the
    configuration file when one is set, [-t] when a terminal is forced, the
    host name, the tokens of the remote command.  For any other host name,
    one the check does not find or one on which the check fails, it runs no
    program at all. *)
Theorem connectToHost_ssh_arguments (flags : Flags) (hostName : string)
  (remoteCommand : list string) :
  let t := fst (connectToHost flags hostName remoteCommand []) in
  (execEvents t = [] \/
   execEvents t = [("ssh", claimedArgs flags hostName remoteCommand)]) /\
  (quickCheck flags hostName = (true, None) ->
   execEvents t = [("ssh", claimedArgs flags hostName remoteCommand)]) /\
  (quickCheck flags hostName <> (true, None) ->
   execEvents t = []).
Proof.
  cbv zeta. unfold quickCheck. run_connect.
  destruct flags as [cf tty]; cbn [configFile forceTTY].
  destruct (String.eqb cf "") eqn:Ecf; cbn [negb].
  all: match goal with
       | |- context [QuickHostExistsInFile ?a ?b] =>
           destruct (QuickHostExistsInFile a b) as [[|] [e|]]
       | |- context [QuickHostExists ?a] =>
           destruct (QuickHostExists a) as [[|] [e|]]
       end.
  all: cbn [negb app].
  all: split; [|split].
  all: try (left; reflexivity).
  all: try (intros Hq; discriminate Hq).
  all: try (intros _; reflexivity).
  all: try (intros Hne; exfalso; apply Hne; reflexivity).
  all: try intros _.
  all: destruct remoteCommand as [|r rs], tty.
  all: cbn [List.length Nat.ltb Nat.leb negb app].
  all: destruct NewHistoryManager as [m|e'].
  all: try destruct (RecordConnection m hostName).
  all: cbn.
  all: match goal with
       | |- context [Run ?p ?a] => destruct (Run p a) as [[[st|] msg|msg]|]
       end.
  all: cbn; auto.
Qed.

(** C9.  When the existence check does not find the host, [connectToHost]
    ends the process with status 1 before anything of the history package
    is called and before any program is run; when the check itself has not
    failed, all it does before is print the two lines that say so. *)
Theorem connectToHost_unknown_host (flags : Flags) (hostName : string)
  (remoteCommand : list string) :
  fst (quickCheck flags hostName) = false ->
  let r := connectToHost flags hostName remoteCommand [] in
  snd r = None /\
  existsb isHistoryOrExec (fst r) = false /\
  last (fst r) (EvExit 0) = EvExit 1 /\
  (snd (quickCheck flags hostName) = None ->
   fst r =
   [Stdout ("Error: Host '" ++ hostName
            ++ "' not found in SSH configuration." ++ nl)%string;
    Stdout ("Use 'sshm' to see available hosts." ++ nl)%string;
    EvExit 1]).
Proof.
  cbv zeta. unfold quickCheck. run_connect.
  destruct (if negb (String.eqb (configFile flags) "")
            then QuickHostExistsInFile hostName (configFile flags)
            else QuickHostExists hostName) as [found err].
  cbn [fst snd]. intros ->.
  destruct err as [e|]; cbn.
  - repeat split. discriminate.
  - repeat split.
Qed.

End Connect.

(** ** Runs of completion and of the direct-connect path *)

(** The case "already has host arg returns nothing" of the test of the
    completion function: an argument is there, the partial argument is
    empty, and no name is returned although all three match. *)
Lemma completion_after_first_argument :
  let C := hostsPackage threeHosts in
  @infoCmd_ValidArgsFunction asciiOnlyTables C noFlags ["existing-host"] "" =
  ([], ShellCompDirectiveNoFileComp) /\
  @matchingNames asciiOnlyTables "" threeHosts =
  ["prod-server"; "dev-server"; "staging-db"] /\
  ~ completesByPrefix asciiOnlyTables C noFlags ["existing-host"] "".
Proof.
  cbv zeta. repeat split.
  intros Hc. specialize (Hc threeHosts eq_refl). discriminate Hc.
Qed.

Lemma infoCmd_completion_witness :
  @infoCmd_ValidArgsFunction asciiOnlyTables (hostsPackage threeHosts)
    noFlags [] "DEV" =
  (["dev-server"], ShellCompDirectiveNoFileComp).
Proof.
  apply (proj1 (infoCmd_completion (U := asciiOnlyTables)
                  (C := hostsPackage threeHosts) noFlags [] "DEV" threeHosts
                  eq_refl)).
  reflexivity.
Defined.

(** A host name that the configuration does not hold: no [ssh]. *)
Lemma connectToHost_runs_nothing_for_unknown_host :
  @quickCheck (hostsPackage threeHosts) noFlags "staging" = (false, None) /\
  execEvents
    (fst (@connectToHost (hostsPackage threeHosts) quietHistory sshEndsWell
            noFlags "staging" ["uptime"] [])) = [] /\
  ~ invokesSSH (hostsPackage threeHosts) quietHistory sshEndsWell
      noFlags "staging" ["uptime"].
Proof.
  repeat split. intros Hrun. discriminate Hrun.
Qed.

Lemma connectToHost_ssh_arguments_witness :
  execEvents
    (fst (@connectToHost (hostsPackage threeHosts) quietHistory sshEndsWell
            withConfigAndTTY "dev-server" ["ls"; "-la"; "/var"] [])) =
  [("ssh", ["-F"; "/srv/ssh/config"; "-t"; "dev-server"; "ls"; "-la"; "/var"])].
Proof.
  apply (proj1 (proj2 (connectToHost_ssh_arguments
                         (C := hostsPackage threeHosts)
                         (H := quietHistory) (X := sshEndsWell)
                         withConfigAndTTY "dev-server"
                         ["ls"; "-la"; "/var"]))).
  reflexivity.
Defined.

Lemma connectToHost_unknown_host_witness :
  @connectToHost (hostsPackage threeHosts) quietHistory sshEndsWell
    noFlags "dev-servr" [] [] =
  ([Stdout ("Error: Host 'dev-servr' not found in SSH configuration." ++ nl);
    Stdout ("Use 'sshm' to see available hosts." ++ nl);
    EvExit 1]%string, None).
Proof.
  pose proof (connectToHost_unknown_host (C := hostsPackage threeHosts)
                (H := quietHistory) (X := sshEndsWell)
                noFlags "dev-servr" [] eq_refl) as [Hend [_ [_ Htrace]]].
  rewrite (surjective_pairing (connectToHost _ _ _ _)).
  rewrite Hend, (Htrace eq_refl). reflexivity.
Defined.

(** ** The tests of the repository, on the registry of the specification *)

Example TestRunInfoSuccessJSON :
  exists v result target,
    @runInfo noRawMessages sampleConfig [] "prod-web" "/tmp/prod" false =
    ([written false v], 0) /\
    member "schema" v = Some (JString "sshm.info.v1") /\
    member "ok" v = Some (JBool true) /\
    member "error" v = Some JNull /\
    member "result" v = Some result /\
    member "canonical_name" result = Some (JString "prod-web") /\
    member "target" result = Some target /\
    member "host" target = Some (JString "prod-web") /\
    member "hostname" target = Some (JString "10.0.0.10") /\
    member "user" target = Some (JString "deploy") /\
    member "port" target = Some (JNumber 2222) /\
    member "identity_file" result = Some (JString "~/.ssh/id_prod") /\
    member "proxy_jump" result = Some (JString "bastion") /\
    member "tags" result = Some (JArray [JString "prod"; JString "web"]) /\
    member "source" result =
    Some (JObject [("file", JString "/tmp/prod"); ("line", JNumber 2)]).
Proof.
  do 3 eexists. split; [vm_compute; reflexivity|].
  repeat split; reflexivity.
Qed.

Example TestRunInfoNotFoundJSON :
  @runInfo noRawMessages sampleConfig [] "missing" "/tmp/prod" false =
  ([written false (errorValue "missing" "NOT_FOUND" "host 'missing' not found")],
   2).
Proof. vm_compute. reflexivity. Qed.

Example TestInfoValidArgsFunctionWithSSHConfig :
  let complete := @infoCmd_ValidArgsFunction asciiOnlyTables sampleConfig
                    {| configFile := "/tmp/servers"; forceTTY := false |} in
  complete [] "" =
  (["prod-server"; "dev-server"; "staging-db"], ShellCompDirectiveNoFileComp)
  /\ complete [] "prod" = (["prod-server"], ShellCompDirectiveNoFileComp)
  /\ complete [] "DEV" = (["dev-server"], ShellCompDirectiveNoFileComp)
  /\ complete [] "nonexistent" = ([], ShellCompDirectiveNoFileComp)
  /\ complete ["existing-host"] "" = ([], ShellCompDirectiveNoFileComp).
Proof. cbv zeta. repeat split; vm_compute; reflexivity. Qed.



(** * Further properties of the code *)

(** ** [maybePort] and [maybeString] *)

(** X1.  [maybePort] gives no port for a value that is empty or white space
    only, the number for a value that, white space removed, is a decimal
    integer within the range of [int], whatever its sign and size, and an
    error for any other value. *)
Theorem maybePort_outcomes (v : string) :
  match maybePort v with
  | inl None => TrimSpace v = ""
  | inl (Some port) =>
      TrimSpace v <> "" /\
      decimalInteger (TrimSpace v) = Some port /\ fitsInt port
  | inr _ =>
      TrimSpace v <> "" /\
      ~ (exists z, decimalInteger (TrimSpace v) = Some z /\ fitsInt z)
  end.
Proof.
  destruct (maybePort v) as [[port|]|e] eqn:Ep.
  - apply maybePort_value. exact Ep.
  - unfold maybePort in Ep.
    destruct (String.eqb (TrimSpace v) "") eqn:Eb.
    + apply String.eqb_eq. exact Eb.
    + destruct (Atoi (TrimSpace v)); discriminate.
  - apply maybePort_error. exists e. exact Ep.
Qed.

(** *** White space is trimmed once and for all *)

Lemma trimLeft_stable (table : list (list ascii)) (l : list ascii) :
  forall skip,
    trimLeft table (trimLeft table l skip) O = trimLeft table l skip.
Proof.
  induction l as [|a l IH]; intros skip.
  - reflexivity.
  - cbn [trimLeft]. destruct skip as [|k].
    + destruct (spaceWidth table (a :: l)) as [|k] eqn:Ew.
      * cbn [trimLeft]. rewrite Ew. reflexivity.
      * apply IH.
    + apply IH.
Qed.

Lemma trimLeft_suffix (table : list (list ascii)) (l : list ascii) :
  forall skip, exists p, l = p ++ trimLeft table l skip.
Proof.
  induction l as [|a l IH]; intros skip.
  - exists []. reflexivity.
  - cbn [trimLeft]. destruct skip as [|k].
    + destruct (spaceWidth table (a :: l)) as [|k] eqn:Ew.
      * exists []. reflexivity.
      * destruct (IH k) as [p Hp]. exists (a :: p). cbn. congruence.
    + destruct (IH k) as [p Hp]. exists (a :: p). cbn. congruence.
Qed.

Lemma startsWith_app (r x rest : list ascii) :
  startsWith r x = true -> startsWith r (x ++ rest) = true.
Proof.
  revert x. induction r as [|a r IH]; intros x Hs.
  - destruct x; reflexivity.
  - destruct x as [|b x]; cbn in Hs; [discriminate|].
    apply andb_true_iff in Hs. destruct Hs as [Hab Hr].
    cbn. rewrite Hab. cbn. apply IH. exact Hr.
Qed.

(** No white space at the head of a list, none at the head of a list that
    it starts. *)
Lemma spaceWidth_prefix (table : list (list ascii)) (x rest : list ascii) :
  forallb (fun r => negb (Nat.eqb (List.length r) 0)) table = true ->
  spaceWidth table (x ++ rest) = O ->
  spaceWidth table x = O.
Proof.
  intros Hne Hw. unfold spaceWidth in *.
  destruct (find (fun r => startsWith r x) table) as [r|] eqn:Ef;
    [|reflexivity].
  apply find_some in Ef. destruct Ef as [Hin Hs].
  destruct (find (fun r => startsWith r (x ++ rest)) table) as [r'|] eqn:Ef'.
  - apply find_some in Ef'. destruct Ef' as [Hin' _].
    rewrite forallb_forall in Hne. specialize (Hne r' Hin').
    rewrite Hw in Hne. discriminate.
  - apply (find_none _ _ Ef') in Hin.
    rewrite (startsWith_app _ _ _ Hs) in Hin. discriminate.
Qed.

Lemma trimLeft_nothing (table : list (list ascii)) (x : list ascii) :
  x = [] \/ spaceWidth table x = O -> trimLeft table x O = x.
Proof.
  intros [->|Hw]; [reflexivity|].
  destruct x as [|a x]; [reflexivity|].
  cbn [trimLeft]. rewrite Hw. reflexivity.
Qed.

(** What [trimLeft] returns is empty or has no white space at its head. *)
Lemma trimLeft_clean (table : list (list ascii)) (l : list ascii) :
  forall skip,
    trimLeft table l skip = [] \/
    spaceWidth table (trimLeft table l skip) = O.
Proof.
  induction l as [|a l IH]; intros skip; cbn [trimLeft].
  - left. reflexivity.
  - destruct skip as [|k].
    + destruct (spaceWidth table (a :: l)) as [|k] eqn:Ew.
      * right. exact Ew.
      * apply IH.
    + apply IH.
Qed.

Lemma spaceRunes_not_empty :
  forallb (fun r => negb (Nat.eqb (List.length r) 0)) spaceRunes = true.
Proof. reflexivity. Qed.

(** The bytes of [TrimSpace s]. *)
Lemma TrimSpace_bytes (s : string) :
  list_ascii_of_string (TrimSpace s) =
  rev (trimLeft (map (@rev ascii) spaceRunes)
         (rev (trimLeft spaceRunes (list_ascii_of_string s) O)) O).
Proof.
  unfold TrimSpace. apply list_ascii_of_string_of_list_ascii.
Qed.

Lemma TrimSpace_idempotent (s : string) :
  TrimSpace (TrimSpace s) = TrimSpace s.
Proof.
  unfold TrimSpace at 1. rewrite TrimSpace_bytes.
  set (l := trimLeft spaceRunes (list_ascii_of_string s) O).
  set (r := trimLeft (map (@rev ascii) spaceRunes) (rev l) O).
  assert (trimLeft spaceRunes (rev r) O = rev r) as Hleft.
  { apply trimLeft_nothing.
    destruct (trimLeft_clean spaceRunes (list_ascii_of_string s) O)
      as [Hl|Hl]; fold l in Hl.
    - left. subst r. rewrite Hl. reflexivity.
    - right.
      destruct (trimLeft_suffix (map (@rev ascii) spaceRunes) (rev l) O)
        as [p Hp]. fold r in Hp.
      apply (spaceWidth_prefix spaceRunes (rev r) (rev p)
               spaceRunes_not_empty).
      rewrite <- rev_app_distr, <- Hp, rev_involutive. exact Hl. }
  rewrite Hleft, rev_involutive.
  unfold r at 1. rewrite trimLeft_stable. fold r.
  unfold TrimSpace. fold l. fold r. reflexivity.
Qed.

(** X2.  [maybeString] never returns the empty string, and a string it
    returns is returned as it is when it is given back: it has no white
    space left around it. *)
Theorem maybeString_trimmed (v t : string) :
  maybeString v = Some t ->
  t <> "" /\ TrimSpace t = t /\ maybeString t = Some t.
Proof.
  unfold maybeString.
  destruct (String.eqb (TrimSpace v) "") eqn:Eb; [discriminate|].
  intros [= <-]. apply String.eqb_neq in Eb.
  rewrite TrimSpace_idempotent.
  apply String.eqb_neq in Eb. rewrite Eb.
  apply String.eqb_neq in Eb. repeat split; assumption || reflexivity.
Qed.

Lemma maybeString_trimmed_witness :
  maybeString "10.0.0.7" = Some "10.0.0.7".
Proof.
  apply (maybeString_trimmed "  10.0.0.7 " "10.0.0.7"). reflexivity.
Defined.

(** ** Writing the document *)

Lemma Marshal_fails `{EncodingJSON} (resp : infoResponse) :
  (exists err, Marshal resp = inr err) <-> invalidDetails resp.
Proof.
  unfold Marshal, invalidDetails, marshalError, marshalRaw.
  destruct (resp_Error resp) as [e|].
  - destruct (ie_Details e) as [raw|] eqn:Ed.
    + destruct (rawValue raw) as [d|] eqn:Er.
      * split; [intros [err Herr]; discriminate|].
        intros [e' [raw' [[= <-] [Hd Hr]]]].
        rewrite Ed in Hd. injection Hd as <-. congruence.
      * split; [|intros _; eexists; reflexivity].
        intros _. exists e, raw. repeat split; assumption.
    + split; [intros [err Herr]; discriminate|].
      intros [e' [raw' [[= <-] [Hd _]]]]. congruence.
  - split; [intros [err Herr]; discriminate|].
    intros [e' [raw' [He _]]]. discriminate.
Qed.

(** X3.  [writeInfoJSON] leaves what was written before as it is and adds
    exactly one document.  Unless the details of the response's error are
    no JSON value, the document is the response, marshalled and laid out
    as asked, with a line feed after it.  Otherwise, and only then, it is
    the fixed INTERNAL text, never indented, and what follows it is not a
    line feed but a backslash and the letter n, the raw string literal of
    the source taken byte for byte. *)
Theorem writeInfoJSON_adds_one_document `{EncodingJSON}
  (out : Writer) (pretty : bool) (resp : infoResponse) :
  exists doc,
    writeInfoJSON out pretty resp = out ++ [doc] /\
    (invalidDetails resp ->
     doc = {| doc_indent := false;
              doc_value := internalErrorValue;
              doc_end := String (ascii_of_N 92) (String (ascii_of_N 110) "") |})
    /\
    (~ invalidDetails resp ->
     doc_indent doc = pretty /\
     doc_end doc = String (ascii_of_N 10) "" /\
     Marshal resp = inl (doc_value doc) /\
     member "schema" (doc_value doc) = Some (JString (resp_Schema resp)) /\
     member "ok" (doc_value doc) = Some (JBool (resp_OK resp)) /\
     member "hostname" (doc_value doc)
     = Some (JString (resp_Hostname resp))).
Proof.
  unfold writeInfoJSON, MarshalIndent.
  destruct (Marshal resp) as [v|err] eqn:Em.
  - exists {| doc_indent := pretty; doc_value := v; doc_end := lineFeed |}.
    split; [destruct pretty; reflexivity|].
    split.
    + intros Hbad. apply Marshal_fails in Hbad.
      destruct Hbad as [err Herr]. congruence.
    + intros _. cbn [doc_indent doc_value doc_end].
      split; [reflexivity|]. split; [reflexivity|]. split; [reflexivity|].
      unfold Marshal in Em.
      destruct (match resp_Error resp with
                | Some e => marshalError e
                | None => Some JNull
                end); [|discriminate].
      injection Em as <-. repeat split.
  - exists {| doc_indent := false;
              doc_value := internalErrorValue;
              doc_end := backslashN |}.
    split; [destruct pretty; reflexivity|].
    split; [reflexivity|].
    intros Hgood. exfalso. apply Hgood. apply Marshal_fails.
    exists err. exact Em.
Qed.

Lemma writeInfoJSON_adds_one_document_witness :
  @writeInfoJSON noRawMessages [] true brokenResponse =
  [{| doc_indent := false;
      doc_value := internalErrorValue;
      doc_end := String (ascii_of_N 92) (String (ascii_of_N 110) "") |}]
  /\ doc_end (written true JNull) = String (ascii_of_N 10) "".
Proof.
  split; [|reflexivity].
  destruct (writeInfoJSON_adds_one_document (H := noRawMessages)
              [] true brokenResponse) as [doc [Hw [Hbad _]]].
  rewrite Hw, Hbad; [reflexivity|].
  exists {| ie_Code := "CONFIG_ERROR"; ie_Message := "bad";
            ie_Details := Some "{" |}, "{".
  repeat split.
Defined.

(** ** What the info command reports *)

Section InfoReport.

Context {J : EncodingJSON} {C : ConfigPackage}.

(** X4.  Every document of [runInfo] repeats the argument as [hostname],
    and none is the INTERNAL document.  For a host that is found and whose
    port parses, the result holds the name of the host as the
    configuration has it, the argument as [target.host], the port as a
    number or [null], the tags as they are ([null] for none), and the file
    and line of the host. *)
Theorem runInfo_reports (out : Writer) (hostnameArg cfgFile : string)
  (pretty : bool) :
  exists v,
    runInfo out hostnameArg cfgFile pretty =
    (out ++ [written pretty v], snd (runInfo out hostnameArg cfgFile pretty))
    /\ member "hostname" v = Some (JString hostnameArg)
    /\ errorCode v <> Some (JString "INTERNAL")
    /\ forall host port,
         lookupHost hostnameArg cfgFile = inl host ->
         maybePort (Port host) = inl port ->
         exists result target,
           member "result" v = Some result /\
           member "canonical_name" result = Some (JString (Name host)) /\
           member "target" result = Some target /\
           member "host" target = Some (JString hostnameArg) /\
           member "port" target = Some (orNull JNumber port) /\
           member "tags" result
           = Some (orNull (fun l => JArray (map JString l)) (Tags host)) /\
           member "source" result
           = Some (JObject [("file", JString (SourceFile host));
                            ("line", JNumber (LineNumber host))]).
Proof.
  rewrite runInfo_cases.
  destruct (lookupHost hostnameArg cfgFile) as [host|e].
  - destruct (maybePort (Port host)) as [port|perr] eqn:Ep.
    + eexists. split; [reflexivity|]. split; [reflexivity|].
      split; [discriminate|].
      intros host' port' [= <-] Hp. rewrite Ep in Hp. injection Hp as <-.
      do 2 eexists. repeat split.
    + eexists. split; [reflexivity|]. split; [reflexivity|].
      split; [discriminate|].
      intros host' port' [= <-] Hp. congruence.
  - eexists. split; [reflexivity|]. split; [reflexivity|].
    split.
    + unfold errorCodeFor. destruct (notFoundText e); discriminate.
    + intros host' port' Hh. discriminate.
Qed.

(** X5.  The info command, once cobra has accepted its arguments, has
    exactly one argument and never indexes out of range; it writes the
    document of [runInfo] first and then ends as [runInfo] says: it
    returns when the status is 0, and ends the process with the status, 1
    or 2, otherwise. *)
Theorem infoCmd_runs (flags : Flags) (infoPretty : bool) (out : Writer)
  (args : list string) :
  infoCmd_Args args = None ->
  exists hostnameArg,
    args = [hostnameArg] /\
    let '(out', status) :=
      runInfo out hostnameArg (configFile flags) infoPretty in
    infoCmd_RunE flags infoPretty out args =
    (out', if status =? 0 then Returned else Exited status) /\
    (status = 0 \/ status = 1 \/ status = 2).
Proof.
  unfold infoCmd_Args, ExactArgs.
  destruct args as [|a [|b args]]; cbn; try discriminate.
  intros _. exists a. split; [reflexivity|].
  unfold infoCmd_RunE.
  rewrite runInfo_cases.
  destruct (lookupHost a (configFile flags)) as [host|e].
  - destruct (maybePort (Port host)); cbn; auto.
  - unfold exitCodeFor. destruct (notFoundText e); cbn; auto.
Qed.

End InfoReport.

Lemma infoCmd_runs_witness :
  @infoCmd_RunE noRawMessages (hostsPackage threeHosts) noFlags false []
    ["staging"] =
  ([written false
      (errorValue "staging" "NOT_FOUND" "host 'staging' not found")],
   Exited 2).
Proof.
  destruct (infoCmd_runs (J := noRawMessages) (C := hostsPackage threeHosts)
              noFlags false [] ["staging"] eq_refl) as [a [Ha Hrun]].
  injection Ha as <-. exact (proj1 Hrun).
Defined.

Lemma runInfo_reports_witness :
  exists v result target,
    @runInfo noRawMessages (oneHostPackage dbHost) [] "db" "" true =
    ([written true v], 0) /\
    member "result" v = Some result /\
    member "target" result = Some target /\
    member "port" target = Some (JNumber 22) /\
    member "tags" result = Some JNull.
Proof.
  destruct (runInfo_reports (J := noRawMessages) (C := oneHostPackage dbHost)
              [] "db" "" true) as [v [Hrun [_ [_ Hfound]]]].
  destruct (Hfound dbHost (Some 22) eq_refl eq_refl)
    as [result [target [Hr [_ [Ht [_ [Hp [Htags _]]]]]]]].
  exists v, result, target. repeat split; assumption.
Defined.

(** ** Completion: the directive and the names *)

Section CompletionDirective.

Context {U : UnicodeTables} {C : ConfigPackage}.

Lemma matchingNames_are_names (toComplete : string) (hosts : list SSHHost)
  (name : string) :
  In name (matchingNames toComplete hosts) ->
  exists host, In host hosts /\ Name host = name.
Proof.
  unfold matchingNames. intros Hin.
  apply in_map_iff in Hin. destruct Hin as [host [Hname Hhost]].
  apply filter_In in Hhost. exists host. split; [apply Hhost | exact Hname].
Qed.

(** X6.  The completion function of [infoCmd] reports an error, with no
    name, exactly when it is asked for the first argument and the
    configuration cannot be parsed; in every other case it forbids file
    completion.  Each name it returns is the name of a parsed host,
    letter for letter as the configuration has it. *)
Theorem infoCmd_completion_directive (flags : Flags) (args : list string)
  (toComplete : string) :
  let '(completions, directive) :=
    infoCmd_ValidArgsFunction flags args toComplete in
  (directive = ShellCompDirectiveError <->
   args = [] /\ exists e, parsedHosts flags = inr e) /\
  (directive = ShellCompDirectiveError -> completions = []) /\
  (forall name,
     In name completions ->
     exists hosts host,
       parsedHosts flags = inl hosts /\ In host hosts /\ Name host = name).
Proof.
  unfold infoCmd_ValidArgsFunction, parsedHosts.
  destruct args as [|a args]; cbn [List.length Nat.eqb negb].
  - destruct (if negb (String.eqb (configFile flags) "")
              then ParseSSHConfigFile (configFile flags)
              else ParseSSHConfig) as [hosts|e].
    + rewrite completions_loop. cbn [app].
      split; [|split].
      * split; [discriminate|]. intros [_ [e He]]. discriminate.
      * discriminate.
      * intros name Hin.
        destruct (matchingNames_are_names _ _ _ Hin) as [host [Hh Hn]].
        exists hosts, host. repeat split; assumption.
    + split; [|split].
      * split; [|reflexivity]. intros _. split; [reflexivity|].
        exists e. reflexivity.
      * reflexivity.
      * intros name [].
  - split; [|split].
    + split; [discriminate|]. intros [Hargs _]. discriminate.
    + discriminate.
    + intros name [].
Qed.

End CompletionDirective.

(** ** The completion command *)

Lemma existsb_eqb_In (v : string) (l : list string) :
  existsb (String.eqb v) l = true <-> In v l.
Proof.
  rewrite existsb_exists. split.
  - intros [x [Hin Heq]]. apply String.eqb_eq in Heq. congruence.
  - intros Hin. exists v. split; [exact Hin | apply String.eqb_refl].
Qed.

(** X7.  The completion command accepts its arguments exactly when there
    is one argument and it is one of bash, zsh, fish and powershell.  For
    arguments it accepts, [RunE] is in range and calls the generator of
    that very shell: [GenBashCompletionV2] with descriptions for bash,
    [GenZshCompletion] for zsh, [GenFishCompletion] with descriptions for
    fish, [GenPowerShellCompletionWithDesc] for powershell; it never
    returns without having generated a script.  For any other first
    argument it would return at once, without an error and without a
    script. *)
Theorem completionCmd_accepts_what_it_generates (args : list string) :
  (completionCmd_Args args = None <->
   exists shell, args = [shell] /\ In shell completionCmd_ValidArgs) /\
  (completionCmd_Args args = None ->
   (args = ["bash"] /\
    completionCmd_RunE args = Some (Some (GenBashCompletionV2 true))) \/
   (args = ["zsh"] /\
    completionCmd_RunE args = Some (Some GenZshCompletion)) \/
   (args = ["fish"] /\
    completionCmd_RunE args = Some (Some (GenFishCompletion true))) \/
   (args = ["powershell"] /\
    completionCmd_RunE args = Some (Some GenPowerShellCompletionWithDesc))) /\
  (forall rest,
     completionCmd_RunE ("bash" :: rest)
     = Some (Some (GenBashCompletionV2 true)) /\
     completionCmd_RunE ("zsh" :: rest) = Some (Some GenZshCompletion) /\
     completionCmd_RunE ("fish" :: rest)
     = Some (Some (GenFishCompletion true)) /\
     completionCmd_RunE ("powershell" :: rest)
     = Some (Some GenPowerShellCompletionWithDesc)) /\
  (forall shell rest,
     args = shell :: rest ->
     (In shell completionCmd_ValidArgs <->
      exists g, completionCmd_RunE args = Some (Some g)) /\
     (~ In shell completionCmd_ValidArgs <->
      completionCmd_RunE args = Some None)).
Proof.
  assert (forall shell rest,
             In shell completionCmd_ValidArgs <->
             exists g, completionCmd_RunE (shell :: rest) = Some (Some g))
    as Hgen.
  { intros shell rest. unfold completionCmd_RunE, completionCmd_ValidArgs.
    split.
    - intros [<-|[<-|[<-|[<-|[]]]]]; eexists; reflexivity.
    - intros [g Hg].
      destruct (String.eqb shell "bash") eqn:E1;
        [apply String.eqb_eq in E1; subst; cbn; auto|].
      destruct (String.eqb shell "zsh") eqn:E2;
        [apply String.eqb_eq in E2; subst; cbn; auto|].
      destruct (String.eqb shell "fish") eqn:E3;
        [apply String.eqb_eq in E3; subst; cbn; auto|].
      destruct (String.eqb shell "powershell") eqn:E4;
        [apply String.eqb_eq in E4; subst; cbn; auto 6|].
      discriminate. }
  assert (completionCmd_Args args = None <->
          exists shell, args = [shell] /\ In shell completionCmd_ValidArgs)
    as Hacc.
  { unfold completionCmd_Args, MatchAll, ExactArgs.
    destruct args as [|shell [|b args]]; cbn [List.length Nat.eqb negb].
    - split; [discriminate | intros [s [Hs _]]; discriminate].
    - unfold OnlyValidArgs.
      change (Nat.ltb 0 (List.length completionCmd_ValidArgs)) with true.
      change (map beforeTab completionCmd_ValidArgs)
        with completionCmd_ValidArgs.
      cbn [find].
      destruct (existsb (String.eqb shell) completionCmd_ValidArgs) eqn:Ev;
        cbn [negb].
      + apply existsb_eqb_In in Ev. split; [|reflexivity].
        intros _. exists shell. split; [reflexivity | exact Ev].
      + split; [discriminate|].
        intros [s [[= <-] Hin]]. apply existsb_eqb_In in Hin. congruence.
    - split; [discriminate | intros [s [Hs _]]; discriminate]. }
  split; [exact Hacc|]. split; [|split].
  - intros Hok. apply Hacc in Hok. destruct Hok as [shell [-> Hin]].
    destruct Hin as [<-|[<-|[<-|[<-|[]]]]].
    + left. split; reflexivity.
    + right; left. split; reflexivity.
    + right; right; left. split; reflexivity.
    + right; right; right. split; reflexivity.
  - intros rest. repeat split.
  - intros shell rest ->. split; [apply Hgen|].
    rewrite (Hgen shell rest).
    unfold completionCmd_RunE.
    destruct (if String.eqb shell "bash"
              then Some (GenBashCompletionV2 true)
              else if String.eqb shell "zsh" then Some GenZshCompletion
              else if String.eqb shell "fish"
                   then Some (GenFishCompletion true)
              else if String.eqb shell "powershell"
                   then Some GenPowerShellCompletionWithDesc
              else None) as [g|].
    + split; [intros Hno; exfalso; apply Hno; exists g; reflexivity|].
      discriminate.
    + split; [reflexivity|]. intros _ [g Hg]. discriminate.
Qed.

Lemma completionCmd_accepts_what_it_generates_witness :
  completionCmd_RunE ["fish"] = Some (Some (GenFishCompletion true)) /\
  completionCmd_RunE ["zsh"] = Some (Some GenZshCompletion).
Proof.
  split.
  - destruct (proj1 (proj2 (completionCmd_accepts_what_it_generates
                              ["fish"])) eq_refl)
      as [[Ha _]|[[Ha _]|[[_ Hg]|[Ha _]]]];
      [discriminate Ha|discriminate Ha|exact Hg|discriminate Ha].
  - destruct (proj1 (proj2 (completionCmd_accepts_what_it_generates
                              ["zsh"])) eq_refl)
      as [[Ha _]|[[_ Hg]|[[Ha _]|[Ha _]]]];
      [discriminate Ha|exact Hg|discriminate Ha|discriminate Ha].
Defined.

(** ** The direct-connect path, for a host that is found *)

Section Connected.

Context {C : ConfigPackage} {H : HistoryPackage} {X : OSExec}.

(** All that [connectToHost] does once the check has found the host. *)
Lemma connectToHost_found (flags : Flags) (hostName : string)
  (remoteCommand : list string) :
  quickCheck flags hostName = (true, None) ->
  connectToHost flags hostName remoteCommand [] =
  (historyTrace hostName ++ greeting hostName remoteCommand
   ++ [EvExec "ssh" (claimedArgs flags hostName remoteCommand)]
   ++ afterRun (Run "ssh" (claimedArgs flags hostName remoteCommand)),
   match Run "ssh" (claimedArgs flags hostName remoteCommand) with
   | None => Some tt
   | Some _ => None
   end).
Proof.
  unfold quickCheck, connectToHost, bind, ret, emit, os_Exit, log_Fatal,
    fmt_Print, fmt_Println, claimedArgs, historyTrace, greeting, afterRun.
  destruct flags as [cf tty]; cbn [configFile forceTTY].
  destruct (String.eqb cf "") eqn:Ecf; cbn [negb]; intros ->.
  all: destruct remoteCommand as [|r rs], tty.
  all: cbn [List.length Nat.ltb Nat.leb negb app].
  all: destruct NewHistoryManager as [m|e'].
  all: try destruct (RecordConnection m hostName).
  all: cbn.
  all: match goal with
       | |- context [Run ?p ?a] => destruct (Run p a) as [[[st|] msg|msg]|]
       end.
  all: reflexivity.
Qed.

(** A check that fails is fatal, whatever it says of the host. *)
Lemma connectToHost_check_failed (flags : Flags) (hostName : string)
  (remoteCommand : list string) (found : bool) (e : error) :
  quickCheck flags hostName = (found, Some e) ->
  connectToHost flags hostName remoteCommand [] =
  ([LogFatal ("Error checking SSH config: " ++ Error e)%string; EvExit 1],
   None).
Proof.
  unfold quickCheck, connectToHost, bind, ret, emit, os_Exit, log_Fatal.
  intros ->. reflexivity.
Qed.

Lemma last_snoc2 {A} (l : list A) (a b d : A) :
  last (l ++ [a; b]) d = b.
Proof.
  change [a; b] with ([a] ++ [b]). rewrite app_assoc. apply last_last.
Qed.

Lemma exits_app (a b : list event) : exits (a ++ b) = exits a ++ exits b.
Proof. apply flat_map_app. Qed.

Lemma printed_app (a b : list event) :
  printed (a ++ b) = printed a ++ printed b.
Proof. apply flat_map_app. Qed.

Lemma historyEvents_app (a b : list event) :
  historyEvents (a ++ b) = historyEvents a ++ historyEvents b.
Proof. apply filter_app. Qed.

Lemma historyTrace_exits (hostName : string) :
  exits (historyTrace hostName) = [].
Proof.
  unfold historyTrace.
  destruct NewHistoryManager as [m|e]; [|reflexivity].
  destruct (RecordConnection m hostName); reflexivity.
Qed.

Lemma greeting_exits (hostName : string) (remoteCommand : list string) :
  exits (greeting hostName remoteCommand) = [].
Proof. destruct remoteCommand; reflexivity. Qed.

(** X8.  The status of [ssh] is the status of the process.  For a host
    that is found, [connectToHost] returns when [ssh] ends well; it ends
    the process with the exit status of [ssh] when [ssh] reports one, and
    says nothing more; for any other failure to run [ssh] it prints the
    error and ends the process with status 1.  When the check itself
    fails, the process ends with status 1 and [ssh] is not run. *)
Theorem connectToHost_exit_status (flags : Flags) (hostName : string)
  (remoteCommand : list string) :
  let r := connectToHost flags hostName remoteCommand [] in
  let ran := Run "ssh" (claimedArgs flags hostName remoteCommand) in
  (quickCheck flags hostName = (true, None) ->
   match ran with
   | None => snd r = Some tt /\ exits (fst r) = []
   | Some (ExitError (Some status) _) =>
       snd r = None /\ exits (fst r) = [status] /\
       last (fst r) (EvExit 0) = EvExit status /\
       printed (fst r) =
       printed (historyTrace hostName ++ greeting hostName remoteCommand)
   | Some e =>
       snd r = None /\ exits (fst r) = [1] /\
       last (printed (fst r)) ""
       = ("Error executing SSH command: " ++ RunError_Error e ++ nl)%string
   end) /\
  (forall found e,
     quickCheck flags hostName = (found, Some e) ->
     snd r = None /\ exits (fst r) = [1] /\ execEvents (fst r) = []).
Proof.
  cbv zeta. split.
  - intros Hfound. rewrite (connectToHost_found _ _ _ Hfound).
    cbn [fst snd].
    rewrite !exits_app, historyTrace_exits, greeting_exits.
    rewrite !printed_app.
    destruct (Run "ssh" (claimedArgs flags hostName remoteCommand))
      as [[[status|] msg|msg]|]; cbn [afterRun exits flat_map app].
    + repeat split.
      * rewrite !app_assoc. apply last_snoc2.
      * cbn. rewrite !app_nil_r. reflexivity.
    + repeat split.
      cbn [printed flat_map app RunError_Error].
      rewrite !app_assoc. apply last_last.
    + repeat split.
      cbn [printed flat_map app RunError_Error].
      rewrite !app_assoc. apply last_last.
    + repeat split.
  - intros found e Hcheck.
    rewrite (connectToHost_check_failed _ _ _ _ _ Hcheck).
    repeat split.
Qed.

(** X9.  For a host that is found, the history package is used before
    [ssh] is started and not after: the manager is asked for once, and the
    connection is recorded once, under the host name, exactly when there
    is a manager.  Neither an error of the history package nor the way
    [ssh] ends changes that; the connection is recorded even if [ssh]
    then fails. *)
Theorem connectToHost_records_before_ssh (flags : Flags)
  (hostName : string) (remoteCommand : list string) :
  quickCheck flags hostName = (true, None) ->
  exists before after,
    fst (connectToHost flags hostName remoteCommand []) =
    before
    ++ [EvExec "ssh" (claimedArgs flags hostName remoteCommand)]
    ++ after /\
    historyEvents before =
    EvNewHistoryManager ::
    match NewHistoryManager with
    | inl _ => [EvRecordConnection hostName]
    | inr _ => []
    end /\
    historyEvents after = [] /\
    execEvents before = [] /\
    exits before = [].
Proof.
  intros Hfound. rewrite (connectToHost_found _ _ _ Hfound). cbn [fst].
  exists (historyTrace hostName ++ greeting hostName remoteCommand),
    (afterRun (Run "ssh" (claimedArgs flags hostName remoteCommand))).
  split; [rewrite <- !app_assoc; reflexivity|].
  rewrite historyEvents_app, exits_app, historyTrace_exits, greeting_exits.
  unfold execEvents. rewrite flat_map_app.
  unfold historyTrace, greeting, afterRun.
  destruct NewHistoryManager as [m|e];
    [destruct (RecordConnection m hostName)|];
    destruct remoteCommand;
    destruct (Run "ssh" _) as [[[status|] msg|msg]|];
    repeat split.
Qed.

(** X10.  With a remote command, [connectToHost] prints nothing of its
    own when the history works and [ssh] can be run: the standard output
    holds the output of the command only.  Without a remote command it
    prints the line that announces the connection. *)
Theorem connectToHost_prints (flags : Flags) (hostName : string)
  (remoteCommand : list string) (historyManager : HistoryManager) :
  quickCheck flags hostName = (true, None) ->
  NewHistoryManager = inl historyManager ->
  RecordConnection historyManager hostName = None ->
  (forall text,
     Run "ssh" (claimedArgs flags hostName remoteCommand)
     <> Some (OtherError text)) ->
  (forall text,
     Run "ssh" (claimedArgs flags hostName remoteCommand)
     <> Some (ExitError None text)) ->
  printed (fst (connectToHost flags hostName remoteCommand [])) =
  match remoteCommand with
  | [] => [("Connecting to " ++ hostName ++ "..." ++ nl)%string]
  | _ :: _ => []
  end.
Proof.
  intros Hfound Hm Hrec Hother Hexit.
  rewrite (connectToHost_found _ _ _ Hfound). cbn [fst].
  rewrite !printed_app. unfold historyTrace. rewrite Hm, Hrec.
  destruct (Run "ssh" (claimedArgs flags hostName remoteCommand))
    as [[[status|] msg|msg]|] eqn:Er.
  - destruct remoteCommand; reflexivity.
  - exfalso. exact (Hexit msg eq_refl).
  - exfalso. exact (Hother msg eq_refl).
  - destruct remoteCommand; reflexivity.
Qed.

End Connected.

(** ** [strings.Split] at a byte *)

Lemma Split_without_separator (sep : ascii) (s : string) :
  noByte sep s = true -> Split s sep = [s].
Proof.
  induction s as [|c s IH]; cbn [noByte allBytes Split]; [reflexivity|].
  intros Hno. apply andb_true_iff in Hno. destruct Hno as [Hc Hs].
  apply negb_true_iff in Hc. rewrite Hc.
  unfold noByte in IH. rewrite (IH Hs). reflexivity.
Qed.

Lemma Split_at_first_separator (sep : ascii) (pre rest : string) :
  noByte sep pre = true ->
  Split (pre ++ String sep rest) sep = pre :: Split rest sep.
Proof.
  induction pre as [|c pre IH]; cbn [noByte allBytes Split append].
  - intros _. rewrite Ascii.eqb_refl. reflexivity.
  - intros Hno. apply andb_true_iff in Hno. destruct Hno as [Hc Hs].
    apply negb_true_iff in Hc. rewrite Hc.
    unfold noByte in IH. rewrite (IH Hs). reflexivity.
Qed.

Lemma append_empty (s : string) : (s ++ "")%string = s.
Proof. induction s as [|c s IH]; cbn; congruence. Qed.

(** The second piece is what stands between the first separator and the
    next, or the end. *)
Lemma Split_second_piece (sep : ascii) (pre piece rest : string) :
  noByte sep pre = true ->
  noByte sep piece = true ->
  rest = "" \/ (exists post, rest = String sep post) ->
  exists pieces,
    Split (pre ++ String sep (piece ++ rest)) sep = pre :: piece :: pieces.
Proof.
  intros Hpre Hpiece Hrest.
  rewrite (Split_at_first_separator _ _ _ Hpre).
  destruct Hrest as [->|[post ->]].
  - rewrite append_empty, (Split_without_separator _ _ Hpiece).
    exists []. reflexivity.
  - rewrite (Split_at_first_separator _ _ _ Hpiece).
    eexists. reflexivity.
Qed.

(** ** [Execute] *)

Section Executed.

Context {C : ConfigPackage} {H : HistoryPackage} {X : OSExec}.

(** X11.  [Execute] does nothing more when the root command has returned
    no error.  When the error says "unknown command" and holds a double
    quote, what stands between the first double quote and the next (or
    the end) is taken for a host name, and [Execute] connects to it with
    no remote command.  For every other error it prints it on the
    standard error, ends the process with status 1, and connects to
    nothing. *)
Theorem Execute_takes_unknown_command_for_host (flags : Flags) :
  Execute flags None [] = ([], Some tt) /\
  (forall pre host rest,
     noByte quote pre = true ->
     noByte quote host = true ->
     rest = "" \/ (exists post, rest = String quote post) ->
     Contains (pre ++ String quote (host ++ rest)) "unknown command" = true ->
     Execute flags (Some (pre ++ String quote (host ++ rest))%string) =
     lift (connectToHost flags host [])) /\
  (forall errStr,
     Contains errStr "unknown command" = false \/ noByte quote errStr = true ->
     Execute flags (Some errStr) [] =
     ([Stderr ("Error: " ++ errStr ++ nl)%string; Base (EvExit 1)], None)).
Proof.
  split; [reflexivity|]. split.
  - intros pre host rest Hpre Hhost Hrest Hunknown.
    unfold Execute. rewrite Hunknown.
    destruct (Split_second_piece quote pre host rest Hpre Hhost Hrest)
      as [pieces ->].
    reflexivity.
  - intros errStr Hwhy. unfold Execute.
    destruct (Contains errStr "unknown command") eqn:Ec.
    + destruct Hwhy as [Hwhy|Hno]; [discriminate|].
      rewrite (Split_without_separator _ _ Hno). reflexivity.
    + reflexivity.
Qed.

End Executed.

Lemma Execute_takes_unknown_command_for_host_witness :
  @Execute (hostsPackage threeHosts) quietHistory sshEndsWell noFlags
    (Some ("unknown command " ++ String quote ("dev-server"
           ++ String quote (" for " ++ String quote ("sshm"
           ++ String quote ""))))%string) =
  lift (@connectToHost (hostsPackage threeHosts) quietHistory sshEndsWell
          noFlags "dev-server" []).
Proof.
  apply (proj1 (proj2 (Execute_takes_unknown_command_for_host
                         (C := hostsPackage threeHosts) (H := quietHistory)
                         (X := sshEndsWell) noFlags))
           "unknown command " "dev-server"
           (String quote (" for " ++ String quote ("sshm"
              ++ String quote "")))%string).
  - reflexivity.
  - reflexivity.
  - right. eexists. reflexivity.
  - reflexivity.
Defined.

(** ** The interactive mode *)

Section Interactive.

Context {C : ConfigPackage} {U : UIPackage} {I : StandardInput}.

Ltac run_interactive :=
  unfold runInteractiveMode, rbind, rret, remit, lift, exitNoHosts,
    fmt_Println, fmt_Print, log_Fatal, bind, emit, os_Exit.

(** With hosts in the configuration the interface starts at once. *)
Lemma runInteractiveMode_with_hosts (flags : Flags) (searchMode : bool)
  (AppVersion : string) (host : SSHHost) (hosts : list SSHHost) :
  parsedHosts flags = inl (host :: hosts) ->
  runInteractiveMode flags searchMode AppVersion [] =
  match
    RunInteractiveMode (host :: hosts) (configFile flags) searchMode
      AppVersion
  with
  | None =>
      ([EvRunInteractiveMode (host :: hosts) (configFile flags) searchMode
          AppVersion], Some tt)
  | Some err =>
      ([EvRunInteractiveMode (host :: hosts) (configFile flags) searchMode
          AppVersion;
        Base (LogFatal
                ("Error running interactive mode: " ++ Error err)%string);
        Base (EvExit 1)], None)
  end.
Proof.
  unfold parsedHosts. run_interactive. intros ->.
  cbn [List.length Nat.eqb].
  destruct (RunInteractiveMode (host :: hosts) (configFile flags)
              searchMode AppVersion); reflexivity.
Qed.

(** The trace up to the decision of the prompt. *)
Lemma runInteractiveMode_without_hosts (flags : Flags) (searchMode : bool)
  (AppVersion : string) :
  parsedHosts flags = inl [] ->
  exists t,
    runInteractiveMode flags searchMode AppVersion [] = (t, snd (runInteractiveMode flags searchMode AppVersion [])) /\
    hasRead t = true /\
    addForms t = (if saysYes then [("", configFile flags)] else []) /\
    startedModes t =
    (if saysYes then
       match hostsAfterForm flags with
       | inl (h :: hs) => [h :: hs]
       | _ => []
       end
     else []) /\
    (startedModes t = [] ->
     snd (runInteractiveMode flags searchMode AppVersion []) = None /\
     exits (baseEvents t) = [1]).
Proof.
  unfold parsedHosts, hostsAfterForm, parsedHosts, saysYes.
  run_interactive. intros ->.
  cbn [List.length Nat.eqb].
  destruct Scanln as [response [err|]]; cbn [fst snd andb].
  - eexists. split; [reflexivity|]. repeat split.
  - destruct (String.eqb response "y" || String.eqb response "Y").
    + destruct (RunAddForm "" (configFile flags)) as [[e|] after];
        cbn [snd];
        destruct (if negb (String.eqb (configFile flags) "")
                  then @ParseSSHConfigFile after (configFile flags)
                  else @ParseSSHConfig after) as [[|h hs]|e'];
        cbn [List.length Nat.eqb];
        try destruct (RunInteractiveMode (h :: hs) (configFile flags)
                        searchMode AppVersion);
        (eexists; split; [reflexivity|]; repeat split; discriminate).
    + eexists. split; [reflexivity|]. repeat split.
Qed.

(** X12.  The interactive interface is never started on an empty host
    list, and at most once.  When it is not started at all the process
    has ended with status 1. *)
Theorem runInteractiveMode_needs_hosts (flags : Flags) (searchMode : bool)
  (AppVersion : string) :
  let r := runInteractiveMode flags searchMode AppVersion [] in
  (forall hosts, In hosts (startedModes (fst r)) -> hosts <> []) /\
  (List.length (startedModes (fst r)) <= 1)%nat /\
  (startedModes (fst r) = [] ->
   snd r = None /\ exits (baseEvents (fst r)) = [1]).
Proof.
  cbv zeta.
  destruct (parsedHosts flags) as [[|host hosts]|e] eqn:Ep.
  - destruct (runInteractiveMode_without_hosts flags searchMode AppVersion Ep)
      as [t [Hr [_ [_ [Hmodes Hnone]]]]].
    rewrite Hr. cbn [fst snd]. split; [|split].
    + rewrite Hmodes.
      destruct saysYes;
        [destruct (hostsAfterForm flags) as [[|h hs]|e']|];
        intros hosts Hin; cbn in Hin; try contradiction.
      destruct Hin as [<-|[]]. discriminate.
    + rewrite Hmodes.
      destruct saysYes;
        [destruct (hostsAfterForm flags) as [[|h hs]|e']|]; cbn; lia.
    + exact Hnone.
  - rewrite (runInteractiveMode_with_hosts _ _ _ _ _ Ep).
    destruct (RunInteractiveMode (host :: hosts) (configFile flags)
                searchMode AppVersion); cbn.
    + repeat split; try discriminate; try lia.
      intros hs [<-|[]]. discriminate.
    + repeat split; try discriminate; try lia.
      intros hs [<-|[]]. discriminate.
  - unfold parsedHosts in Ep. run_interactive. rewrite Ep. cbn.
    repeat split; try lia; try discriminate; try (intros hs []).
Qed.

(** X13.  When the configuration holds no host, the interactive mode reads
    an answer from the standard input.  The add form is run, once, for a
    new host in the configuration file in use, exactly when the answer is
    read without error and is "y" or "Y".  After the form the interface is
    started exactly when the configuration then parses to a host list
    that is not empty, on that list, whether or not the form has reported
    an error; in every other case the process ends with status 1.  With
    hosts in the configuration nothing is asked. *)
Theorem runInteractiveMode_offers_to_add (flags : Flags)
  (searchMode : bool) (AppVersion : string) :
  let t := fst (runInteractiveMode flags searchMode AppVersion []) in
  (parsedHosts flags = inl [] ->
   hasRead t = true /\
   addForms t = (if saysYes then [("", configFile flags)] else []) /\
   startedModes t =
   (if saysYes then
      match hostsAfterForm flags with
      | inl (h :: hs) => [h :: hs]
      | _ => []
      end
    else [])) /\
  (forall host hosts,
     parsedHosts flags = inl (host :: hosts) ->
     hasRead t = false /\ addForms t = [] /\
     startedModes t = [host :: hosts]).
Proof.
  cbv zeta. split.
  - intros Ep.
    destruct (runInteractiveMode_without_hosts flags searchMode AppVersion Ep)
      as [t [Hr [Hread [Hforms [Hmodes _]]]]].
    rewrite Hr. cbn [fst]. repeat split; assumption.
  - intros host hosts Ep.
    rewrite (runInteractiveMode_with_hosts _ _ _ _ _ Ep).
    destruct (RunInteractiveMode (host :: hosts) (configFile flags)
                searchMode AppVersion); repeat split.
Qed.

End Interactive.

(** ** The root command *)

Lemma baseEvents_lifted (l : list event) : baseEvents (map Base l) = l.
Proof.
  unfold baseEvents.
  induction l as [|e l IH]; cbn [map flat_map app];
    [reflexivity | rewrite IH; reflexivity].
Qed.

Lemma startedModes_lifted (l : list event) : startedModes (map Base l) = [].
Proof.
  unfold startedModes.
  induction l as [|e l IH]; cbn [map flat_map app];
    [reflexivity | exact IH].
Qed.

Lemma hasRead_lifted (l : list event) : hasRead (map Base l) = false.
Proof. induction l as [|e l IH]; [reflexivity | exact IH]. Qed.

Section Root.

Context {C : ConfigPackage} {H : HistoryPackage} {X : OSExec}
  {U : UIPackage} {I : StandardInput}.

Lemma found_trace_programs (flags : Flags) (hostName : string)
  (remoteCommand : list string) :
  execEvents
    (historyTrace hostName ++ greeting hostName remoteCommand
     ++ [EvExec "ssh" (claimedArgs flags hostName remoteCommand)]
     ++ afterRun (Run "ssh" (claimedArgs flags hostName remoteCommand))) =
  [("ssh", claimedArgs flags hostName remoteCommand)].
Proof.
  unfold execEvents. rewrite !flat_map_app.
  unfold historyTrace, greeting, afterRun.
  destruct NewHistoryManager as [m|e];
    [destruct (RecordConnection m hostName)|];
    destruct remoteCommand;
    destruct (Run "ssh" _) as [[[status|] msg|msg]|];
    reflexivity.
Qed.

(** Whatever the check says but "found, no error", no program is run and
    the process ends with status 1. *)
Lemma connectToHost_not_found_trace (flags : Flags) (hostName : string)
  (remoteCommand : list string) :
  quickCheck flags hostName <> (true, None) ->
  let r := connectToHost flags hostName remoteCommand [] in
  execEvents (fst r) = [] /\ exits (fst r) = [1] /\ snd r = None.
Proof.
  cbv zeta.
  unfold quickCheck, connectToHost, bind, ret, emit, os_Exit, log_Fatal,
    fmt_Print, fmt_Println.
  destruct (if negb (String.eqb (configFile flags) "")
            then QuickHostExistsInFile hostName (configFile flags)
            else QuickHostExists hostName) as [[|] [e|]].
  all: intros Hne; try (exfalso; apply Hne; reflexivity).
  all: repeat split.
Qed.

(** X14.  The root command takes its first argument for the host and all
    the others, in order, for the remote command.  For a host that the
    check finds, the one program it runs is [ssh] with [-F] and the file
    when one is set, [-t] when asked for, the host, and those other
    arguments.  For a host that the check does not find, and when the
    check fails, it runs no program and the process ends with status 1.
    With an argument it starts no interface and asks nothing; without any
    argument, and with hosts in the configuration, it starts the interface
    on those hosts. *)
Theorem RootCmd_runs_ssh_on_first_argument (flags : Flags)
  (searchMode : bool) (AppVersion : string) :
  (forall hostName rest,
     quickCheck flags hostName = (true, None) ->
     let t :=
       fst (RootCmd_RunE flags searchMode AppVersion (hostName :: rest) [])
     in
     execEvents (baseEvents t) = [("ssh", claimedArgs flags hostName rest)]
     /\ startedModes t = [] /\ hasRead t = false) /\
  (forall hostName rest,
     quickCheck flags hostName <> (true, None) ->
     let r := RootCmd_RunE flags searchMode AppVersion (hostName :: rest) []
     in
     execEvents (baseEvents (fst r)) = [] /\
     exits (baseEvents (fst r)) = [1] /\
     snd r = None /\
     startedModes (fst r) = [] /\ hasRead (fst r) = false) /\
  (forall host hosts,
     parsedHosts flags = inl (host :: hosts) ->
     let t := fst (RootCmd_RunE flags searchMode AppVersion [] []) in
     startedModes t = [host :: hosts] /\ hasRead t = false).
Proof.
  split; [|split].
  - intros hostName rest Hfound. cbv zeta.
    unfold RootCmd_RunE, lift.
    assert ((if Nat.ltb 1 (List.length (hostName :: rest))
             then rest else []) = rest) as ->
        by (destruct rest; reflexivity).
    rewrite (connectToHost_found _ _ _ Hfound). cbn [fst app].
    rewrite baseEvents_lifted, startedModes_lifted, hasRead_lifted.
    split; [apply found_trace_programs|]. split; reflexivity.
  - intros hostName rest Hne. cbv zeta.
    unfold RootCmd_RunE, lift.
    assert ((if Nat.ltb 1 (List.length (hostName :: rest))
             then rest else []) = rest) as ->
        by (destruct rest; reflexivity).
    destruct (connectToHost_not_found_trace flags hostName rest Hne)
      as [Hexec [Hexit Hend]].
    destruct (connectToHost flags hostName rest []) as [t r].
    cbn [fst snd app] in *.
    rewrite baseEvents_lifted, startedModes_lifted, hasRead_lifted.
    repeat split; assumption.
  - intros host hosts Ep. cbv zeta. unfold RootCmd_RunE.
    rewrite (runInteractiveMode_with_hosts _ _ _ _ _ Ep).
    destruct (RunInteractiveMode (host :: hosts) (configFile flags)
                searchMode AppVersion); split; reflexivity.
Qed.

End Root.

(** [sshm prod-server ls -la /var], as the help of the command has it. *)
Lemma RootCmd_runs_ssh_on_first_argument_witness :
  execEvents
    (baseEvents
       (fst (@RootCmd_RunE (hostsPackage threeHosts) quietHistory
               sshEndsWell plainUI noInput noFlags false "dev"
               ["prod-server"; "ls"; "-la"; "/var"] []))) =
  [("ssh", ["prod-server"; "ls"; "-la"; "/var"])].
Proof.
  apply (proj1 (RootCmd_runs_ssh_on_first_argument
                  (C := hostsPackage threeHosts) (H := quietHistory)
                  (X := sshEndsWell) (U := plainUI) (I := noInput)
                  noFlags false "dev")
           "prod-server" ["ls"; "-la"; "/var"] eq_refl).
Defined.

(** ** Runs of the direct-connect path and of the interactive mode *)

Lemma connectToHost_exit_status_witness :
  exits
    (fst (@connectToHost (hostsPackage threeHosts) quietHistory sshFails
            noFlags "dev-server" ["uptime"] [])) = [255].
Proof.
  pose proof (proj1 (connectToHost_exit_status
                       (C := hostsPackage threeHosts) (H := quietHistory)
                       (X := sshFails) noFlags "dev-server" ["uptime"])
                eq_refl) as Hrun.
  exact (proj1 (proj2 Hrun)).
Defined.

(** The connection is recorded although [ssh] fails afterwards. *)
Lemma connectToHost_records_before_ssh_witness :
  exists before after,
    fst (@connectToHost (hostsPackage threeHosts) quietHistory sshFails
           noFlags "dev-server" ["uptime"] []) =
    before ++ [EvExec "ssh" ["dev-server"; "uptime"]] ++ after /\
    historyEvents before =
    [EvNewHistoryManager; EvRecordConnection "dev-server"] /\
    historyEvents after = [].
Proof.
  destruct (connectToHost_records_before_ssh
              (C := hostsPackage threeHosts) (H := quietHistory)
              (X := sshFails) noFlags "dev-server" ["uptime"] eq_refl)
    as [before [after [Ht [Hb [Ha _]]]]].
  exists before, after. repeat split; assumption.
Defined.

Lemma connectToHost_prints_witness :
  printed
    (fst (@connectToHost (hostsPackage threeHosts) quietHistory sshFails
            withConfigAndTTY "dev-server" ["uptime"] [])) = [].
Proof.
  apply (connectToHost_prints (C := hostsPackage threeHosts)
           (H := quietHistory) (X := sshFails)
           withConfigAndTTY "dev-server" ["uptime"] tt).
  - reflexivity.
  - reflexivity.
  - reflexivity.
  - intros text. discriminate.
  - intros text. discriminate.
Defined.

(** No host, a yes, and a form after which there are three hosts: the
    interface starts on them. *)
Lemma runInteractiveMode_offers_to_add_witness :
  let t :=
    fst (@runInteractiveMode (hostsPackage []) plainUI yesInput noFlags
           false "dev" []) in
  addForms t = [("", "")] /\ startedModes t = [threeHosts].
Proof.
  cbv zeta.
  destruct (proj1 (runInteractiveMode_offers_to_add
                     (C := hostsPackage []) (U := plainUI) (I := yesInput)
                     noFlags false "dev") eq_refl)
    as [_ [Hforms Hmodes]].
  split; [exact Hforms | exact Hmodes].
Defined.

(** No host and no answer: the process ends with status 1. *)
Lemma runInteractiveMode_needs_hosts_witness :
  let r :=
    @runInteractiveMode (hostsPackage []) plainUI noInput noFlags false
      "dev" [] in
  snd r = None /\ exits (baseEvents (fst r)) = [1].
Proof.
  cbv zeta.
  exact (proj2 (proj2 (runInteractiveMode_needs_hosts
                  (C := hostsPackage []) (U := plainUI) (I := noInput)
                  noFlags false "dev")) eq_refl).
Defined.
